(** * codex-review: the managed child-process invocation of [callCodex]

    A shallow embedding of [CodexMCPServer.callCodex]
    (codex-review/src/index.ts) together with the pieces of the Node.js
    runtime it leans on: [parseInt], [setTimeout]/[clearTimeout], the
    settle-once behaviour of a [Promise], and the listeners of the child
    process and of its streams.  The executor body and every callback are
    written in a small state-and-exception monad so that each definition
    can be read next to the TypeScript it comes from. *)

From Stdlib Require Import String Ascii List ZArith Lia Bool Arith.
From Stdlib Require Import DecimalString.
From Stdlib Require DecimalPos DecimalZ.
Import ListNotations.
Local Open Scope string_scope.
Local Open Scope Z_scope.

(** ** JavaScript values used by the invocation *)

Module JS.

(** A JavaScript Number as far as this program produces one: the result of
    [parseInt], which is [NaN], an integer-valued double or an infinity.
    [JNum z] stands for the double whose value is the integer [z]; both
    zeros are [JNum 0], which no operation of this program tells
    apart. *)
Inductive Num : Type :=
| NaN
| JNum (z : Z)
| Infinity (negative : bool).

(** The Number for a mathematical integer: the nearest double, a tie
    going to the even significand of 53 bits, and an infinity from
    [2^1024] on.  Up to [2^53] every integer is its own double. *)
Definition of_Z (z : Z) : Num :=
  let a := Z.abs z in
  let shift := Z.log2 a - 52 in
  if shift <=? 0 then JNum z
  else
    let q := Z.shiftr a shift in
    let r := a - Z.shiftl q shift in
    let half := Z.shiftl 1 (shift - 1) in
    let q' := if (half <? r) || ((r =? half) && Z.odd q) then q + 1 else q in
    let m := Z.shiftl q' shift in
    if Z.shiftl 1 1024 <=? m then Infinity (z <? 0)
    else JNum (if z <? 0 then - m else m).

(** All decimal digits of an integer. *)
Definition decimal (z : Z) : string := NilZero.string_of_int (Z.to_int z).

(** Is [a] the double for the integer [c]? *)
Definition reads_as (a c : Z) : bool :=
  match of_Z c with
  | JNum m => m =? a
  | _ => false
  end.

(** Of the two multiples of [p] next to [a], one that reads as [a]: the
    nearer one when both do, and of two equally near ones the even
    multiple. *)
Definition nearest_multiple (a p : Z) : option Z :=
  let below := a / p * p in
  let above := below + p in
  match reads_as a below, reads_as a above with
  | true, true =>
      if a - below <? above - a then Some below
      else if above - a <? a - below then Some above
      else if Z.even (a / p) then Some below else Some above
  | true, false => Some below
  | false, true => Some above
  | false, false => None
  end.

(** The integer with the fewest significant digits that reads as [a],
    trying [zeros] final zeros first, then fewer. *)
Fixpoint shortest (a : Z) (zeros : nat) : Z :=
  match zeros with
  | O => a
  | S n =>
      match nearest_multiple a (10 ^ Z.of_nat zeros) with
      | Some c => c
      | None => shortest a n
      end
  end.

Fixpoint strip_zeros (s : string) : string :=
  match s with
  | EmptyString => EmptyString
  | String c r =>
      match strip_zeros r with
      | EmptyString => if Ascii.eqb c "0" then EmptyString else String c EmptyString
      | r' => String c r'
      end
  end.

(** [d.ddde+n], the notation for numbers from [10^21] on. *)
Definition exponent_form (c : Z) : string :=
  let d := decimal c in
  match strip_zeros d with
  | String h t =>
      String h (match t with EmptyString => "" | _ => "." ++ t end)
        ++ "e+" ++ decimal (Z.of_nat (String.length d) - 1)
  | EmptyString => d
  end.

(** A double above [2^53] is printed with the fewest digits that read
    back as the same double, followed by zeros, or by an exponent from
    [10^21] on. *)
Definition largeToString (a : Z) : string :=
  let c := shortest a (String.length (decimal a) - 1) in
  if 10 ^ 21 <=? c then exponent_form c else decimal c.

(** Template-literal conversion [`${n}`] of a Number
    ([Number::toString]). *)
Definition numToString (n : Num) : string :=
  match n with
  | NaN => "NaN"
  | Infinity negative => if negative then "-Infinity" else "Infinity"
  | JNum z =>
      if Z.abs z <=? 2 ^ 53 then decimal z
      else (if z <? 0 then "-" else "") ++ largeToString (Z.abs z)
  end.

Definition code_of (c : ascii) : nat := nat_of_ascii c.

Definition is_digit (c : ascii) : bool :=
  ((48 <=? code_of c) && (code_of c <=? 57))%nat.

Definition digit_value (c : ascii) : Z := Z.of_nat (code_of c) - 48.

(** [StrWhiteSpaceChar] of ECMAScript, on UTF-8 text.  One-byte members:
    TAB, LF, VT, FF, CR and SPACE. *)
Definition ws1 (a : ascii) : bool :=
  ((9 <=? code_of a) && (code_of a <=? 13) || (code_of a =? 32))%nat.

(** U+00A0 NO-BREAK SPACE. *)
Definition ws2 (a b : ascii) : bool :=
  ((code_of a =? 194) && (code_of b =? 160))%nat.

(** U+1680, U+2000..U+200A, U+2028, U+2029, U+202F, U+205F, U+3000 and
    U+FEFF. *)
Definition ws3 (a b c : ascii) : bool :=
  let x := code_of a in
  let y := code_of b in
  let z := code_of c in
  (((x =? 225) && (y =? 154) && (z =? 128))
   || ((x =? 226) && (y =? 128)
         && (((128 <=? z) && (z <=? 138)) || (z =? 168) || (z =? 169) || (z =? 175)))
   || ((x =? 226) && (y =? 129) && (z =? 159))
   || ((x =? 227) && (y =? 128) && (z =? 128))
   || ((x =? 239) && (y =? 187) && (z =? 191)))%nat.

(** [TrimString(s, start)]: step 2 of [parseInt]. *)
Fixpoint trim_start (s : string) : string :=
  match s with
  | String a r =>
      if ws1 a then trim_start r
      else
        match r with
        | String b r' =>
            if ws2 a b then trim_start r'
            else
              match r' with
              | String c r'' => if ws3 a b c then trim_start r'' else s
              | EmptyString => s
              end
        | EmptyString => s
        end
  | EmptyString => s
  end.

(** Steps 3 and 4 of [parseInt]: the sign and the text after it. *)
Definition split_sign (s : string) : Z * string :=
  match s with
  | String c r =>
      if (code_of c =? 45)%nat then (-1, r)
      else if (code_of c =? 43)%nat then (1, r)
      else (1, s)
  | EmptyString => (1, s)
  end.

(** The value of the longest prefix of decimal digits, read left to
    right starting from [acc]. *)
Fixpoint digits_value (acc : Z) (s : string) : Z :=
  match s with
  | String c r =>
      if is_digit c then digits_value (10 * acc + digit_value c) r else acc
  | EmptyString => acc
  end.

Definition starts_with_digit (s : string) : bool :=
  match s with
  | String c _ => is_digit c
  | EmptyString => false
  end.

(** [parseInt(s, 10)]: the Number for the signed value of the digits. *)
Definition parseInt10 (s : string) : Num :=
  let (sign, body) := split_sign (trim_start s) in
  if starts_with_digit body then of_Z (sign * digits_value 0 body) else NaN.

(** [v || d] on an optional string: [undefined] and the empty string are
    falsy. *)
Definition or_default (v : option string) (d : string) : string :=
  match v with
  | Some (String c r) => String c r
  | _ => d
  end.

(** What [catch (err)] formats: [err instanceof Error ? err.message :
    String(err)]. *)
Inductive Thrown : Type :=
| ErrorObject (message : string)
| OtherValue (as_string : string).

Definition thrown_text (t : Thrown) : string :=
  match t with
  | ErrorObject m => m
  | OtherValue s => s
  end.

(** [`${code}`] for the [code] argument of the close event, a number or
    [null]. *)
Definition codeToString (code : option Z) : string :=
  match code with
  | Some z => numToString (JNum z)
  | None => "null"
  end.

(** [code === 0]. *)
Definition is_zero_code (code : option Z) : bool :=
  match code with
  | Some z => z =? 0
  | None => false
  end.

(** Truthiness of a string. *)
Definition truthy (s : string) : bool :=
  match s with
  | EmptyString => false
  | String _ _ => true
  end.

End JS.

(** ** Text *)

Module Text.

(** [needle] occurs in [hay]. *)
Definition Contains (needle hay : string) : Prop :=
  exists before after, hay = before ++ needle ++ after.

(** All chunks one after the other, in order. *)
Definition join (chunks : list string) : string :=
  fold_right String.append "" chunks.

(** An executable test for [Contains]: is [needle] a prefix of some
    suffix of [hay]? *)
Fixpoint occurs (needle hay : string) : bool :=
  String.prefix needle hay ||
  match hay with
  | EmptyString => false
  | String _ rest => occurs needle rest
  end.

End Text.

(** ** The state of one invocation *)

Inductive Signal : Type := SIGTERM | SIGKILL.

(** What [resolve] or [reject] is called with. *)
Inductive Outcome : Type :=
| Fulfilled (value : string)
| Rejected (message : string).

Inductive Promise : Type :=
| Pending
| Settled (o : Outcome).

(** The two arrow functions handed to [setTimeout]. *)
Inductive Callback : Type :=
| OnTimeout        (* lines 175-184 *)
| OnKillTimeout.   (* lines 179-181 *)

Record Timer : Type := mkTimer {
  timer_id : nat;
  timer_cb : Callback;
  timer_delay : JS.Num;   (* the delay argument as passed *)
  timer_due : Z           (* earliest time at which Node may run it *)
}.

(** What the invocation does with [codex.stdin], in order. *)
Inductive StdinOp : Type :=
| StdinOnError
| StdinWrite (chunk : string)
| StdinEnd.

(** [process.env]. *)
Definition Env : Type := list (string * string).

Fixpoint env_get (k : string) (e : Env) : option string :=
  match e with
  | [] => None
  | (k', v) :: r => if String.eqb k k' then Some v else env_get k r
  end.

(** [{ ...e, k: v }]. *)
Definition env_with (k v : string) (e : Env) : Env :=
  (filter (fun kv => negb (String.eqb k (fst kv))) e ++ [(k, v)])%list.

(** The arguments of [spawn]. *)
Record Spawn : Type := mkSpawn {
  program : string;
  argv : list string;
  child_env : Env
}.

(** How the freshly spawned child presents itself: whether [codex.stdin]
    is there, and whether [write] or [end] throws. *)
Record Launch : Type := mkLaunch {
  has_stdin : bool;
  write_throws : option JS.Thrown;
  end_throws : option JS.Thrown
}.

(** Everything one call of [callCodex] can touch.  Times are in
    milliseconds since the call.  The listeners of lines 214-241 (stdout
    and stderr "data", "close", "error") are registered in one
    synchronous stretch of the executor, hence the single flag
    [child_listeners]. *)
Record State : Type := mkState {
  (* the Node.js event loop *)
  now : Z;
  next_timer : nat;
  timers : list Timer;
  (* the child process object *)
  spawned : option Spawn;
  stdin_ops : list StdinOp;
  signals : list (Z * Signal);
  stdin_listener : bool;      (* codex.stdin.on("error", ...) *)
  child_listeners : bool;     (* stdout/stderr "data", "close", "error" *)
  (* variables of the executor closure *)
  TIMEOUT_MS : JS.Num;
  timeoutId : option nat;
  killTimeoutId : option nat;
  stdout : string;
  stderr : string;
  (* the promise returned to the caller *)
  promise : Promise;
  settle_calls : list Outcome;
  (* the hosting process *)
  console : list string;
  uncaught : list string
}.

Definition set_now v (s : State) : State :=
  mkState v (next_timer s) (timers s) (spawned s) (stdin_ops s) (signals s)
    (stdin_listener s) (child_listeners s) (TIMEOUT_MS s) (timeoutId s)
    (killTimeoutId s) (stdout s) (stderr s) (promise s) (settle_calls s)
    (console s) (uncaught s).

Definition set_timers n v (s : State) : State :=
  mkState (now s) n v (spawned s) (stdin_ops s) (signals s)
    (stdin_listener s) (child_listeners s) (TIMEOUT_MS s) (timeoutId s)
    (killTimeoutId s) (stdout s) (stderr s) (promise s) (settle_calls s)
    (console s) (uncaught s).

Definition set_stdin_ops v (s : State) : State :=
  mkState (now s) (next_timer s) (timers s) (spawned s) v (signals s)
    (stdin_listener s) (child_listeners s) (TIMEOUT_MS s) (timeoutId s)
    (killTimeoutId s) (stdout s) (stderr s) (promise s) (settle_calls s)
    (console s) (uncaught s).

Definition set_signals v (s : State) : State :=
  mkState (now s) (next_timer s) (timers s) (spawned s) (stdin_ops s) v
    (stdin_listener s) (child_listeners s) (TIMEOUT_MS s) (timeoutId s)
    (killTimeoutId s) (stdout s) (stderr s) (promise s) (settle_calls s)
    (console s) (uncaught s).

Definition set_stdin_listener v (s : State) : State :=
  mkState (now s) (next_timer s) (timers s) (spawned s) (stdin_ops s) (signals s)
    v (child_listeners s) (TIMEOUT_MS s) (timeoutId s)
    (killTimeoutId s) (stdout s) (stderr s) (promise s) (settle_calls s)
    (console s) (uncaught s).

Definition set_child_listeners v (s : State) : State :=
  mkState (now s) (next_timer s) (timers s) (spawned s) (stdin_ops s) (signals s)
    (stdin_listener s) v (TIMEOUT_MS s) (timeoutId s)
    (killTimeoutId s) (stdout s) (stderr s) (promise s) (settle_calls s)
    (console s) (uncaught s).

Definition set_timeoutId v (s : State) : State :=
  mkState (now s) (next_timer s) (timers s) (spawned s) (stdin_ops s) (signals s)
    (stdin_listener s) (child_listeners s) (TIMEOUT_MS s) v
    (killTimeoutId s) (stdout s) (stderr s) (promise s) (settle_calls s)
    (console s) (uncaught s).

Definition set_killTimeoutId v (s : State) : State :=
  mkState (now s) (next_timer s) (timers s) (spawned s) (stdin_ops s) (signals s)
    (stdin_listener s) (child_listeners s) (TIMEOUT_MS s) (timeoutId s)
    v (stdout s) (stderr s) (promise s) (settle_calls s)
    (console s) (uncaught s).

Definition set_stdout v (s : State) : State :=
  mkState (now s) (next_timer s) (timers s) (spawned s) (stdin_ops s) (signals s)
    (stdin_listener s) (child_listeners s) (TIMEOUT_MS s) (timeoutId s)
    (killTimeoutId s) v (stderr s) (promise s) (settle_calls s)
    (console s) (uncaught s).

Definition set_stderr v (s : State) : State :=
  mkState (now s) (next_timer s) (timers s) (spawned s) (stdin_ops s) (signals s)
    (stdin_listener s) (child_listeners s) (TIMEOUT_MS s) (timeoutId s)
    (killTimeoutId s) (stdout s) v (promise s) (settle_calls s)
    (console s) (uncaught s).

Definition set_promise p c (s : State) : State :=
  mkState (now s) (next_timer s) (timers s) (spawned s) (stdin_ops s) (signals s)
    (stdin_listener s) (child_listeners s) (TIMEOUT_MS s) (timeoutId s)
    (killTimeoutId s) (stdout s) (stderr s) p c
    (console s) (uncaught s).

Definition set_console v (s : State) : State :=
  mkState (now s) (next_timer s) (timers s) (spawned s) (stdin_ops s) (signals s)
    (stdin_listener s) (child_listeners s) (TIMEOUT_MS s) (timeoutId s)
    (killTimeoutId s) (stdout s) (stderr s) (promise s) (settle_calls s)
    v (uncaught s).

Definition set_uncaught v (s : State) : State :=
  mkState (now s) (next_timer s) (timers s) (spawned s) (stdin_ops s) (signals s)
    (stdin_listener s) (child_listeners s) (TIMEOUT_MS s) (timeoutId s)
    (killTimeoutId s) (stdout s) (stderr s) (promise s) (settle_calls s)
    (console s) v.

Definition set_spawned v (s : State) : State :=
  mkState (now s) (next_timer s) (timers s) v (stdin_ops s) (signals s)
    (stdin_listener s) (child_listeners s) (TIMEOUT_MS s) (timeoutId s)
    (killTimeoutId s) (stdout s) (stderr s) (promise s) (settle_calls s)
    (console s) (uncaught s).

Definition set_TIMEOUT_MS v (s : State) : State :=
  mkState (now s) (next_timer s) (timers s) (spawned s) (stdin_ops s) (signals s)
    (stdin_listener s) (child_listeners s) v (timeoutId s)
    (killTimeoutId s) (stdout s) (stderr s) (promise s) (settle_calls s)
    (console s) (uncaught s).

(** ** A state monad with exceptions *)

Inductive Res (A : Type) : Type :=
| Val (a : A)
| Exn (t : JS.Thrown).
Arguments Val {A} a.
Arguments Exn {A} t.

Definition M (A : Type) : Type := State -> Res A * State.

Definition ret {A} (a : A) : M A := fun s => (Val a, s).

Definition bind {A B} (m : M A) (f : A -> M B) : M B :=
  fun s =>
    match m s with
    | (Val a, s') => f a s'
    | (Exn t, s') => (Exn t, s')
    end.

Definition throw {A} (t : JS.Thrown) : M A := fun s => (Exn t, s).

(** [try { body } catch (err) { handler }]. *)
Definition try_catch {A} (body : M A) (handler : JS.Thrown -> M A) : M A :=
  fun s =>
    match body s with
    | (Val a, s') => (Val a, s')
    | (Exn t, s') => handler t s'
    end.

Definition modify (f : State -> State) : M unit := fun s => (Val tt, f s).

Definition read {A} (f : State -> A) : M A := fun s => (Val (f s), s).

Notation "x <- c1 ;; c2" := (bind c1 (fun x => c2))
  (at level 61, c1 at next level, right associativity).
Notation "c1 ;; c2" := (bind c1 (fun _ => c2))
  (at level 61, right associativity).

(** Running a listener or a timer callback from the event loop: an
    exception that escapes it is an uncaught exception of the host. *)
Definition run_callback (m : M unit) (s : State) : State :=
  match m s with
  | (Val _, s') => s'
  | (Exn t, s') => set_uncaught (uncaught s' ++ [JS.thrown_text t])%list s'
  end.

(** ** Runtime primitives *)

Definition SIGKILL_GRACE_MS : Z := 2000.

(** Node.js runs a timer after the requested delay when that is a number
    between 1 and [TIMEOUT_MAX]; any other delay, [NaN] and the
    infinities included, is replaced by 1 ms. *)
Definition TIMEOUT_MAX : Z := 2147483647.

Definition node_delay (n : JS.Num) : Z :=
  match n with
  | JS.JNum z => if (1 <=? z) && (z <=? TIMEOUT_MAX) then z else 1
  | JS.NaN => 1
  | JS.Infinity _ => 1
  end.

Definition setTimeout (cb : Callback) (delay : JS.Num) : M nat :=
  fun s =>
    let id := next_timer s in
    (Val id,
     set_timers (S id)
       (timers s ++ [mkTimer id cb delay (now s + node_delay delay)])%list s).

Definition clearTimeout (id : nat) : M unit :=
  modify (fun s =>
    set_timers (next_timer s)
      (filter (fun t => negb (timer_id t =? id)%nat) (timers s)) s).

(** [if (v) clearTimeout(v)] for [v] one of the two timer variables. *)
Definition clear_if_set (v : State -> option nat) : M unit :=
  id <- read v ;;
  match id with
  | Some i => clearTimeout i
  | None => ret tt
  end.

(** [codex.kill(sig)]: the signal is recorded with the time it was sent. *)
Definition kill (sig : Signal) : M unit :=
  modify (fun s => set_signals (signals s ++ [(now s, sig)])%list s).

(** A promise keeps the first outcome it is settled with; every call of
    [resolve] or [reject] is recorded in [settle_calls]. *)
Definition settle (o : Outcome) : M unit :=
  modify (fun s =>
    set_promise
      (match promise s with
       | Pending => Settled o
       | Settled o' => Settled o'
       end)
      (settle_calls s ++ [o])%list s).

Definition resolve (value : string) : M unit := settle (Fulfilled value).

(** [reject(new Error(message))]. *)
Definition reject (message : string) : M unit := settle (Rejected message).

Definition console_error (line : string) : M unit :=
  modify (fun s => set_console (console s ++ [line])%list s).

Definition spawn (prog : string) (args : list string) (e : Env) : M unit :=
  modify (set_spawned (Some (mkSpawn prog args e))).

Definition stdin_on_error : M unit :=
  modify (fun s =>
    set_stdin_listener true (set_stdin_ops (stdin_ops s ++ [StdinOnError])%list s)).

Definition stdin_write (L : Launch) (chunk : string) : M unit :=
  match write_throws L with
  | Some t => throw t
  | None => modify (fun s => set_stdin_ops (stdin_ops s ++ [StdinWrite chunk])%list s)
  end.

Definition stdin_end (L : Launch) : M unit :=
  match end_throws L with
  | Some t => throw t
  | None => modify (fun s => set_stdin_ops (stdin_ops s ++ [StdinEnd])%list s)
  end.

(** ** callCodex *)

Definition newline : string := String "010"%char EmptyString.

(** Lines 158-165. *)
Definition codex_args (model reasoning_effort : string) : list string :=
  [ "exec"; "--full-auto"; "-m"; model; "-c";
    "model_reasoning_effort=" ++ reasoning_effort ].

(** The template literals of the five [new Error(...)] calls. *)
Definition timeout_message (T : JS.Num) : string :=
  "Codex process timed out after " ++ JS.numToString T ++ "ms".

Definition stdin_error_message (message : string) : string :=
  "Failed to write to codex stdin: " ++ message.

Definition write_failed_message (err : JS.Thrown) : string :=
  "Failed to write prompt: " ++ JS.thrown_text err.

Definition exit_message (code : option Z) (stderr_text : string) : string :=
  "Codex exited with code " ++ JS.codeToString code ++ ":" ++ newline ++ stderr_text.

Definition spawn_failed_message (message : string) : string :=
  "Failed to spawn codex: " ++ message.

Definition stdin_unavailable_message : string := "Codex stdin is not available".

(** [console.error("Codex stderr:", stderr)]. *)
Definition stderr_log_line (stderr_text : string) : string :=
  "Codex stderr: " ++ stderr_text.

(** Lines 179-181. *)
Definition on_kill_timeout : M unit := kill SIGKILL.

(** Lines 175-184. *)
Definition on_timeout : M unit :=
  kill SIGTERM ;;
  id <- setTimeout OnKillTimeout (JS.JNum SIGKILL_GRACE_MS) ;;
  modify (set_killTimeoutId (Some id)) ;;
  T <- read TIMEOUT_MS ;;
  reject (timeout_message T).

(** Lines 188-193. *)
Definition on_stdin_error (message : string) : M unit :=
  clear_if_set timeoutId ;;
  clear_if_set killTimeoutId ;;
  reject (stdin_error_message message).

(** Lines 214-216 and 218-220. *)
Definition on_stdout_data (data : string) : M unit :=
  modify (fun s => set_stdout (stdout s ++ data) s).

Definition on_stderr_data (data : string) : M unit :=
  modify (fun s => set_stderr (stderr s ++ data) s).

(** Lines 222-235. *)
Definition on_close (code : option Z) : M unit :=
  clear_if_set timeoutId ;;
  clear_if_set killTimeoutId ;;
  if JS.is_zero_code code then
    err <- read stderr ;;
    (if JS.truthy err then console_error (stderr_log_line err) else ret tt) ;;
    out <- read stdout ;;
    resolve out
  else
    err <- read stderr ;;
    reject (exit_message code err).

(** Lines 237-241. *)
Definition on_error (message : string) : M unit :=
  clear_if_set timeoutId ;;
  clear_if_set killTimeoutId ;;
  reject (spawn_failed_message message).

(** The executor passed to [new Promise], lines 147-242.  The two
    [return] statements are the branches that end without registering the
    listeners of lines 214-241. *)
Definition executor (apiKey : string) (env : Env) (L : Launch)
    (prompt model reasoning_effort : string) : M unit :=
  modify (set_TIMEOUT_MS
            (JS.parseInt10 (JS.or_default (env_get "CODEX_TIMEOUT_MS" env) "300000"))) ;;
  modify (set_timeoutId None) ;;
  modify (set_killTimeoutId None) ;;
  let args := codex_args model reasoning_effort in
  spawn "codex" args (env_with "OPENAI_API_KEY" apiKey env) ;;
  T <- read TIMEOUT_MS ;;
  id <- setTimeout OnTimeout T ;;
  modify (set_timeoutId (Some id)) ;;
  if has_stdin L then
    stdin_on_error ;;
    written <-
      try_catch
        (stdin_write L prompt ;; stdin_end L ;; ret true)
        (fun err =>
           clear_if_set timeoutId ;;
           clear_if_set killTimeoutId ;;
           reject (write_failed_message err) ;;
           ret false) ;;
    if written : bool then
      modify (set_stdout "") ;;
      modify (set_stderr "") ;;
      modify (set_child_listeners true)
    else ret tt
  else
    clear_if_set timeoutId ;;
    reject stdin_unavailable_message.

(** The state before the call: nothing scheduled, the clock at 0. *)
Definition idle : State :=
  mkState 0 0 [] None [] [] false false JS.NaN None None "" "" Pending [] [] [].

(** [new Promise(executor)]: an exception that escapes the executor
    rejects the promise. *)
Definition new_promise (exec : M unit) (s : State) : State :=
  match exec s with
  | (Val _, s') => s'
  | (Exn t, s') => snd (reject (JS.thrown_text t) s')
  end.

Definition callCodex (apiKey : string) (env : Env) (L : Launch)
    (prompt model reasoning_effort : string) : State :=
  new_promise (executor apiKey env L prompt model reasoning_effort) idle.

(** ** Events of the event loop *)

(** What the event loop can deliver to the invocation.  [data] is the
    text [data.toString()] of a chunk; time only moves with [Elapse], and
    Node may run a timer at any moment from its due time on.  The child
    is spawned with the default [stdio], so its output and error streams
    exist; the executor registers "data" listeners on them and nothing
    else. *)
Inductive Event : Type :=
| StdoutData (data : string)     (* codex.stdout "data" *)
| StderrData (data : string)     (* codex.stderr "data" *)
| Close (code : option Z)        (* codex "close" *)
| ProcError (message : string)   (* codex "error" *)
| StdinError (message : string)  (* codex.stdin "error" *)
| Elapse (ms : Z)                (* time passes *)
| Fire (id : nat)                (* Node runs the timer, if it is due *)
| StdoutError (message : string) (* codex.stdout "error" *)
| StderrError (message : string). (* codex.stderr "error" *)

(** The pending timer [id], if its time has come. *)
Definition due_timer (id : nat) (s : State) : option Timer :=
  find (fun t => (timer_id t =? id)%nat && (timer_due t <=? now s)) (timers s).

Definition callback_body (cb : Callback) : M unit :=
  match cb with
  | OnTimeout => on_timeout
  | OnKillTimeout => on_kill_timeout
  end.

(** An "error" event with no listener is thrown by the emitter. *)
Definition unhandled_error (message : string) (s : State) : State :=
  set_uncaught (uncaught s ++ [message])%list s.

(** One turn of the event loop.  An event of the child or of its
    streams runs the listener registered for it; without listener a
    "data" or "close" event is lost and an "error" event is thrown, which
    is what happens to every "error" event of the output and error
    streams.  A stream that does not exist emits nothing.  A timer that
    runs is taken off the table first. *)
Definition deliver (L : Launch) (ev : Event) (s : State) : State :=
  match ev with
  | StdoutData d =>
      if child_listeners s then run_callback (on_stdout_data d) s else s
  | StderrData d =>
      if child_listeners s then run_callback (on_stderr_data d) s else s
  | Close code =>
      if child_listeners s then run_callback (on_close code) s else s
  | ProcError m =>
      if child_listeners s then run_callback (on_error m) s
      else unhandled_error m s
  | StdinError m =>
      if has_stdin L then
        if stdin_listener s then run_callback (on_stdin_error m) s
        else unhandled_error m s
      else s
  | Elapse ms => set_now (now s + Z.max 0 ms) s
  | Fire id =>
      match due_timer id s with
      | Some t =>
          run_callback (callback_body (timer_cb t))
            (snd (clearTimeout (timer_id t) s))
      | None => s
      end
  | StdoutError m => unhandled_error m s
  | StderrError m => unhandled_error m s
  end.

Definition run (L : Launch) (evs : list Event) (s : State) : State :=
  fold_left (fun st ev => deliver L ev st) evs s.

(** The usual launch: the input stream is there and takes the payload. *)
Definition healthy : Launch := mkLaunch true None None.

(** ** The states an invocation can be in *)

(** The signals a child can have received: none, the termination signal
    at some time [fired] not before the timer was due, or that followed
    by the kill signal no earlier than [SIGKILL_GRACE_MS] later. *)
Inductive signals_ok (T : JS.Num) : list (Z * Signal) -> Prop :=
| no_signal : signals_ok T []
| term_only fired :
    node_delay T <= fired ->
    signals_ok T [(fired, SIGTERM)]
| term_then_kill fired killed :
    node_delay T <= fired ->
    fired + SIGKILL_GRACE_MS <= killed ->
    signals_ok T [(fired, SIGTERM); (killed, SIGKILL)].

(** Every state of an invocation has one of three shapes.
    - [Running]: the promise is pending and the termination timer is the
      only timer.
    - [Terminating]: the termination timer ran at time [fired]; the
      promise is rejected with the timeout message and the kill timer is
      the only timer.
    - [Quiet]: the promise is settled and no timer is left. *)
Inductive Phase : State -> Prop :=
| Running n sp ops T out err con unc :
    0 <= n ->
    Phase (mkState n 1 [mkTimer 0 OnTimeout T (node_delay T)] sp ops []
             true true T (Some 0%nat) None out err Pending [] con unc)
| Terminating n sp ops T out err calls con unc fired :
    node_delay T <= fired -> fired <= n ->
    hd_error calls = Some (Rejected (timeout_message T)) ->
    Phase (mkState n 2
             [mkTimer 1 OnKillTimeout (JS.JNum SIGKILL_GRACE_MS)
                (fired + SIGKILL_GRACE_MS)]
             sp ops [(fired, SIGTERM)]
             true true T (Some 0%nat) (Some 1%nat) out err
             (Settled (Rejected (timeout_message T))) calls con unc)
| Quiet n nt sp ops sigs sl cl T tid kid out err o calls con unc :
    0 <= n ->
    signals_ok T sigs ->
    hd_error calls = Some o ->
    Phase (mkState n nt [] sp ops sigs sl cl T tid kid out err
             (Settled o) calls con unc).

(** ** Notions used in the statements *)

(** The state of the invocation after the events [evs]. *)
Definition after (apiKey : string) (env : Env) (L : Launch)
    (prompt model reasoning_effort : string) (evs : list Event) : State :=
  run L evs (callCodex apiKey env L prompt model reasoning_effort).

(** What reaches the child's input: nothing when there is no stream, and
    otherwise the listener first, then the payload and the end of input,
    up to the call that throws. *)
Definition expected_stdin_ops (L : Launch) (prompt : string) : list StdinOp :=
  if has_stdin L then
    StdinOnError ::
      match write_throws L with
      | Some _ => []
      | None =>
          StdinWrite prompt ::
            match end_throws L with
            | Some _ => []
            | None => [StdinEnd]
            end
      end
  else [].

(** The promise holds the first outcome passed to [resolve] or [reject]. *)
Definition first_call (s : State) : Promise :=
  match hd_error (settle_calls s) with
  | Some o => Settled o
  | None => Pending
  end.

Definition stdout_chunks (evs : list Event) : list string :=
  flat_map (fun ev => match ev with StdoutData d => [d] | _ => [] end) evs.

Definition stderr_chunks (evs : list Event) : list string :=
  flat_map (fun ev => match ev with StderrData d => [d] | _ => [] end) evs.

Definition same_callback (a b : Callback) : bool :=
  match a, b with
  | OnTimeout, OnTimeout => true
  | OnKillTimeout, OnKillTimeout => true
  | _, _ => false
  end.

(** The pending timers that would run the callback [cb]. *)
Definition pending_timers (cb : Callback) (s : State) : list Timer :=
  filter (fun t => same_callback (timer_cb t) cb) (timers s).

(** The launch state with the clock and the host's uncaught exceptions of
    a later state. *)
Definition later_only (s0 s : State) : State :=
  set_uncaught (uncaught s) (set_now (now s) s0).

(** Is this the close event of a child that exited with code 0? *)
Definition zero_close (ev : Event) : bool :=
  match ev with
  | Close code => JS.is_zero_code code
  | _ => false
  end.

Definition fulfilled (s : State) : bool :=
  match promise s with
  | Settled (Fulfilled _) => true
  | _ => false
  end.

(** Does this event tell that the child is gone: its "close", or its
    "error"? *)
Definition ends_child (ev : Event) : bool :=
  match ev with
  | Close _ | ProcError _ => true
  | _ => false
  end.

Definition is_fire (ev : Event) : bool :=
  match ev with
  | Fire _ => true
  | _ => false
  end.

(** The messages of the "error" events of the child's output and error
    streams, in order of arrival. *)
Definition stream_errors (evs : list Event) : list string :=
  flat_map (fun ev =>
              match ev with
              | StdoutError m | StderrError m => [m]
              | _ => []
              end) evs.

(** Do [write] and [end] of the input stream return normally? *)
Definition launch_writes (L : Launch) : bool :=
  match write_throws L, end_throws L with
  | None, None => true
  | _, _ => false
  end.

(** A line of the error log as line 229 writes it. *)
Definition logged_stderr (line : string) : Prop :=
  exists stderr_text, stderr_text <> "" /\ line = stderr_log_line stderr_text.

(** ** The server around callCodex *)

Module Server.

(** [interface CodexReviewArgs], lines 13-18; an omitted optional field
    is [None]. *)
Record CodexReviewArgs : Type := mkArgs {
  prompt : string;
  reasoning_effort : option string;
  output_file : option string;
  model : option string
}.

(** One entry of a tool result's [content], and the result itself;
    [isError] is [None] where the object literal has no such key. *)
Record Content : Type := mkContent {
  type : string;
  text : string
}.

Record ToolResult : Type := mkResult {
  content : list Content;
  isError : option bool
}.

(** The constructor, lines 24-30: the key the server keeps and what it
    prints to the error log. *)
Record t : Type := mk {
  apiKey : string
}.

Definition create (env : Env) : t * list string :=
  let key := JS.or_default (env_get "OPENAI_API_KEY" env) "" in
  (mk key,
   if negb (JS.truthy key)
   then ["Warning: OPENAI_API_KEY not set in environment"]
   else []).

(** The answer to [ListToolsRequestSchema], lines 48-80. *)
Record Property : Type := mkProperty {
  property_name : string;
  property_type : string;
  property_enum : option (list string);
  property_description : string;
  property_default : option string
}.

Record Tool : Type := mkTool {
  tool_name : string;
  tool_description : string;
  properties : list Property;
  required : list string
}.

Definition tools : list Tool :=
  [ mkTool "codex_review"
      "Request a methodology review from GPT-5 Codex. Returns Codex's analysis and recommendations."
      [ mkProperty "prompt" "string" None
          "The review request prompt. Should include context, current state, proposed approach, and specific questions."
          None;
        mkProperty "reasoning_effort" "string" (Some ["low"; "medium"; "high"])
          "Reasoning effort level (default: high). Use 'high' for important methodology decisions."
          (Some "high");
        mkProperty "output_file" "string" None
          "Optional: Path to save the review response. Parent directories will be created if needed."
          None;
        mkProperty "model" "string" None
          "Codex model to use (default: gpt-5-codex)"
          (Some "gpt-5-codex") ]
      [ "prompt" ] ].

(** The default a tool advertises for one of its properties. *)
Definition advertised_default (tool property : string) : option string :=
  match find (fun tl => String.eqb (tool_name tl) tool) tools with
  | Some tl =>
      match find (fun pr => String.eqb (property_name pr) property) (properties tl) with
      | Some pr => property_default pr
      | None => None
      end
  | None => None
  end.

(** A destructuring default, [{ x = d } = args]: it replaces an omitted
    field only. *)
Definition or_undefined {A : Type} (v : option A) (d : A) : A :=
  match v with
  | Some x => x
  | None => d
  end.

(** [mkdirSync] and [writeFileSync] as the handler uses them: what was
    done to the file system, and which calls throw. *)
Inductive FsOp : Type :=
| Mkdir (dir : string)                       (* { recursive: true } *)
| WriteFile (path data encoding : string).

Record Disk : Type := mkDisk {
  mkdir_throws : string -> option JS.Thrown;
  writeFile_throws : string -> string -> option JS.Thrown
}.

(** Lines 116-119, with [dirname] of Node's [path] module as a parameter:
    the completed operations and the exception that ended them, if
    any. *)
Definition persist (dirname : string -> string) (disk : Disk)
    (file : option string) (response : string) : list FsOp * option JS.Thrown :=
  match file with
  | Some f =>
      if JS.truthy f then
        match mkdir_throws disk (dirname f) with
        | Some e => ([], Some e)
        | None =>
            match writeFile_throws disk f response with
            | Some e => ([Mkdir (dirname f)], Some e)
            | None => ([Mkdir (dirname f); WriteFile f response "utf-8"], None)
            end
        end
      else ([], None)
  | None => ([], None)
  end.

Definition missing_key_text : string :=
  "Error: OPENAI_API_KEY not set. Please configure the API key in your MCP server settings.".

(** Lines 121-128 and 130-138. *)
Definition text_result (response : string) : ToolResult :=
  mkResult [mkContent "text" response] None.

Definition error_result (message : string) : ToolResult :=
  mkResult [mkContent "text" ("Error calling Codex: " ++ message)] (Some true).

(** The [try]/[catch] of lines 111-139 once the promise of [callCodex]
    has settled with [o]. *)
Definition answer (dirname : string -> string) (disk : Disk)
    (args : CodexReviewArgs) (o : Outcome) : list FsOp * ToolResult :=
  match o with
  | Fulfilled response =>
      match persist dirname disk (output_file args) response with
      | (ops, None) => (ops, text_result response)
      | (ops, Some e) => (ops, error_result (JS.thrown_text e))
      end
  | Rejected message => ([], error_result message)
  end.

(** What a call of the handler has come to: its reply ([None] while it
    still awaits [callCodex]), what it did to the file system, and the
    invocation it started, if it started one. *)
Record Handled : Type := mkHandled {
  reply : option ToolResult;
  files : list FsOp;
  child : option State
}.

(** [handleCodexReview], lines 92-140, after the events [evs] of the
    invocation it starts. *)
Definition handleCodexReview (dirname : string -> string) (server : t)
    (env : Env) (L : Launch) (disk : Disk) (args : CodexReviewArgs)
    (evs : list Event) : Handled :=
  let effort := or_undefined (reasoning_effort args) "high" in
  let model_name := or_undefined (model args) "gpt-5-codex" in
  if negb (JS.truthy (apiKey server)) then
    mkHandled (Some (text_result missing_key_text)) [] None
  else
    let s := run L evs (callCodex (apiKey server) env L (prompt args) model_name effort) in
    match promise s with
    | Pending => mkHandled None [] (Some s)
    | Settled o =>
        let (ops, result) := answer dirname disk args o in
        mkHandled (Some result) ops (Some s)
    end.

(** The handler of [CallToolRequestSchema], lines 83-89: the reply, or
    the error it throws. *)
Definition callTool (dirname : string -> string) (server : t)
    (env : Env) (L : Launch) (disk : Disk) (name : string)
    (args : CodexReviewArgs) (evs : list Event) : JS.Thrown + Handled :=
  if String.eqb name "codex_review"
  then inr (handleCodexReview dirname server env L disk args evs)
  else inl (JS.ErrorObject ("Unknown tool: " ++ name)).

(** A file system on which nothing fails. *)
Definition sound_disk : Disk := mkDisk (fun _ => None) (fun _ _ => None).

End Server.

(** ** Proof automation *)

Arguments node_delay : simpl never.
Arguments timeout_message : simpl never.
Arguments stdin_error_message : simpl never.
Arguments write_failed_message : simpl never.
Arguments exit_message : simpl never.
Arguments spawn_failed_message : simpl never.
Arguments stderr_log_line : simpl never.
Arguments JS.parseInt10 : simpl never.
Arguments JS.of_Z : simpl never.
Arguments env_with : simpl never.
Arguments env_get : simpl never.
Arguments String.append : simpl never.

(** Symbolic execution of the executor and of the listeners: call by
    value, so that each record update is evaluated once, unfolding only
    the definitions of the machine and leaving arithmetic, text and the
    tests on exit codes and buffers as they are. *)
Ltac machine_step :=
  cbv beta iota zeta delta
    [ set_now set_timers set_stdin_ops set_signals set_stdin_listener
      set_child_listeners set_timeoutId set_killTimeoutId set_stdout
      set_stderr set_promise set_console set_uncaught set_spawned
      set_TIMEOUT_MS
      now next_timer timers spawned stdin_ops signals stdin_listener
      child_listeners TIMEOUT_MS timeoutId killTimeoutId stdout stderr
      promise settle_calls console uncaught
      timer_id timer_cb timer_delay timer_due
      ret bind throw try_catch modify read run_callback
      setTimeout clearTimeout clear_if_set kill settle resolve reject
      console_error spawn stdin_on_error stdin_write stdin_end
      on_kill_timeout on_timeout on_stdin_error on_stdout_data
      on_stderr_data on_close on_error executor new_promise callCodex
      idle deliver due_timer callback_body unhandled_error
      negb andb Nat.eqb fst snd ].

(** Projections of a state that is not known as a record are folded
    back after a step. *)
Ltac refold s :=
  fold (now s) (next_timer s) (timers s) (spawned s) (stdin_ops s)
    (signals s) (stdin_listener s) (child_listeners s) (TIMEOUT_MS s)
    (timeoutId s) (killTimeoutId s) (stdout s) (stderr s) (promise s)
    (settle_calls s) (console s) (uncaught s).

Ltac step :=
  cbn [has_stdin write_throws end_throws];
  machine_step;
  cbn [app filter find negb andb Nat.eqb];
  machine_step;
  repeat match goal with
         | s : State |- _ => progress (refold s)
         end.

(** Case analysis on the innermost test the goal is stuck on. *)
Ltac break_match :=
  match goal with
  | |- context [match ?x with _ => _ end] => is_var x; destruct x
  | |- context [match ?x with _ => _ end] =>
      lazymatch x with
      | context [match _ with _ => _ end] => fail
      | _ => destruct x eqn:?
      end
  end.

(** The timer that [Fire] finds due, if any, and its callback. *)
Ltac fire_cases :=
  try match goal with
      | |- context [due_timer ?id ?s] =>
          destruct (due_timer id s) as [[? [|] ? ?]|]
      end.

Ltac crush := fire_cases; repeat (step; try break_match); step.

(** * Properties *)

(** ** Values *)

Example parseInt_default : JS.parseInt10 "300000" = JS.JNum 300000.
Proof. reflexivity. Qed.

Example parseInt_trailing : JS.parseInt10 "5000ms" = JS.JNum 5000.
Proof. reflexivity. Qed.

Example parseInt_letters : JS.parseInt10 "five" = JS.NaN.
Proof. reflexivity. Qed.

Example numToString_ex : JS.numToString (JS.JNum 300000) = "300000".
Proof. reflexivity. Qed.

Example numToString_neg : JS.numToString (JS.JNum (-2)) = "-2".
Proof. reflexivity. Qed.

(** Above [2^53] [parseInt] rounds, to the even neighbour in a tie. *)
Example parseInt_rounds :
  JS.parseInt10 "9007199254740993" = JS.JNum 9007199254740992
  /\ JS.parseInt10 "9007199254740995" = JS.JNum 9007199254740996
  /\ JS.parseInt10 "-18446744073709551615" = JS.JNum (-18446744073709551616).
Proof. repeat split. Qed.

Example parseInt_overflow :
  JS.of_Z (2 ^ 1024 - 2 ^ 970 - 1) = JS.JNum (2 ^ 1024 - 2 ^ 971)
  /\ JS.of_Z (2 ^ 1024 - 2 ^ 970) = JS.Infinity false
  /\ JS.of_Z (- 10 ^ 309) = JS.Infinity true.
Proof. repeat split. Qed.

(** Large numbers are printed with their shortest digits. *)
Example numToString_large :
  JS.numToString (JS.parseInt10 "1152921504606846976") = "1152921504606847000"
  /\ JS.numToString (JS.parseInt10 "-18446744073709551616")
     = "-18446744073709552000"
  /\ JS.numToString (JS.parseInt10 "999999999999999868928")
     = "999999999999999900000".
Proof. repeat split. Qed.

Example numToString_exponent :
  JS.numToString (JS.parseInt10 "1000000000000000000000") = "1e+21"
  /\ JS.numToString (JS.parseInt10 "123456789012345678901234567890")
     = "1.2345678901234568e+29"
  /\ JS.numToString (JS.of_Z (2 ^ 1024 - 2 ^ 970 - 1)) = "1.7976931348623157e+308"
  /\ JS.numToString (JS.of_Z (10 ^ 309)) = "Infinity".
Proof. repeat split. Qed.

(** [parseInt] of a text that goes on with a digit is a number. *)
Lemma of_Z_not_NaN z : JS.of_Z z <> JS.NaN.
Proof.
  unfold JS.of_Z. cbv zeta.
  destruct (Z.log2 (Z.abs z) - 52 <=? 0); [discriminate|].
  match goal with |- context [if ?c then JS.Infinity _ else _] => destruct c end;
    discriminate.
Qed.

(** Up to [2^53] in absolute value every integer is a double. *)
Lemma of_Z_exact z : Z.abs z <= 2 ^ 53 -> JS.of_Z z = JS.JNum z.
Proof.
  intros H. assert (C : Z.abs z < 2 ^ 53 \/ Z.abs z = 2 ^ 53) by lia.
  destruct C as [C|C].
  - unfold JS.of_Z. cbv zeta.
    assert (L : Z.log2 (Z.abs z) - 52 <= 0).
    { destruct (Z.eq_dec (Z.abs z) 0) as [E|E]; [rewrite E; cbn; lia|].
      assert (Z.log2 (Z.abs z) < 53); [|lia].
      apply Z.log2_lt_pow2; lia. }
    apply Z.leb_le in L. now rewrite L.
  - assert (E : z = 2 ^ 53 \/ z = - 2 ^ 53) by lia.
    destruct E as [-> | ->]; reflexivity.
Qed.

(** ** Text *)

Lemma text_append_empty_r (s : string) : s ++ "" = s.
Proof.
  induction s as [|c s IH]; [reflexivity|].
  change (String c (s ++ "") = String c s). now rewrite IH.
Qed.

Lemma text_append_assoc (a b c : string) : (a ++ b) ++ c = a ++ (b ++ c).
Proof.
  induction a as [|x a IH]; [reflexivity|].
  change (String x ((a ++ b) ++ c) = String x (a ++ (b ++ c))). now rewrite IH.
Qed.

Lemma text_join_app (a b : list string) :
  Text.join (a ++ b)%list = Text.join a ++ Text.join b.
Proof.
  induction a as [|x a IH]; [reflexivity|].
  change (x ++ Text.join (a ++ b)%list = (x ++ Text.join a) ++ Text.join b).
  now rewrite IH, text_append_assoc.
Qed.

Lemma text_prefix_append (a b : string) : String.prefix a (a ++ b) = true.
Proof.
  induction a as [|c a IH]; [destruct b; reflexivity|].
  change (String.prefix (String c a) (String c (a ++ b)) = true). simpl.
  destruct (Ascii.ascii_dec c c) as [_|N]; [exact IH | now elim N].
Qed.

Lemma text_occurs_unfold (needle hay : string) :
  Text.occurs needle hay =
    String.prefix needle hay ||
    match hay with
    | EmptyString => false
    | String _ rest => Text.occurs needle rest
    end.
Proof. destruct hay; reflexivity. Qed.

Lemma text_Contains_occurs (needle hay : string) :
  Text.Contains needle hay -> Text.occurs needle hay = true.
Proof.
  intros (before & rest & ->).
  induction before as [|c before IH].
  - rewrite text_occurs_unfold.
    change ("" ++ needle ++ rest) with (needle ++ rest).
    now rewrite text_prefix_append.
  - rewrite text_occurs_unfold.
    change (String c before ++ needle ++ rest)
      with (String c (before ++ needle ++ rest)).
    cbv beta iota. rewrite IH. apply orb_true_r.
Qed.

(** ** The shape of every state *)

Lemma node_delay_pos T : 1 <= node_delay T.
Proof.
  unfold node_delay. destruct T as [|z|neg]; [lia| |lia].
  destruct ((1 <=? z) && (z <=? TIMEOUT_MAX)) eqn:E; [|lia].
  apply andb_prop in E. lia.
Qed.

Lemma callCodex_Phase apiKey env L prompt model effort :
  Phase (callCodex apiKey env L prompt model effort).
Proof.
  unfold callCodex, new_promise, executor.
  destruct L as [[|] [w|] [e|]]; step;
    solve [ apply Running; lia
          | apply Quiet; [lia | constructor | reflexivity] ].
Qed.

Lemma hd_error_app_some {A} (l : list A) (x y : A) :
  hd_error l = Some x -> hd_error (l ++ [y]) = Some x.
Proof. destruct l; simpl; congruence. Qed.

Lemma deliver_Phase L ev s : Phase s -> Phase (deliver L ev s).
Proof.
  intros P. destruct P.
  - (* Running *)
    destruct ev; step.
    + apply Running; lia.
    + apply Running; lia.
    + destruct (JS.is_zero_code code); [destruct err|]; step;
        (apply Quiet; [lia | constructor | reflexivity]).
    + apply Quiet; [lia | constructor | reflexivity].
    + destruct (has_stdin L); step;
        [apply Quiet; [lia | constructor | reflexivity] | apply Running; lia].
    + apply Running; lia.
    + unfold due_timer; step. destruct id as [|id]; step.
      * destruct (node_delay T <=? n) eqn:E; step; [|apply Running; lia].
        apply Z.leb_le in E.
        apply Terminating; [lia | lia | reflexivity].
      * apply Running; lia.
    + apply Running; lia.
    + apply Running; lia.
  - (* Terminating *)
    pose proof (node_delay_pos T) as HT.
    destruct ev; step.
    + apply Terminating; auto.
    + apply Terminating; auto.
    + destruct (JS.is_zero_code code); [destruct err|]; step;
        (apply Quiet; [lia | constructor; lia | apply hd_error_app_some; assumption]).
    + apply Quiet; [lia | constructor; lia | apply hd_error_app_some; assumption].
    + destruct (has_stdin L); step;
        [apply Quiet; [lia | constructor; lia | apply hd_error_app_some; assumption]
        | apply Terminating; auto].
    + apply Terminating; auto; lia.
    + unfold due_timer; step. destruct id as [|[|id]]; step;
        try (apply Terminating; auto).
      destruct (fired + SIGKILL_GRACE_MS <=? n) eqn:E; step;
        [|apply Terminating; auto].
      apply Z.leb_le in E.
      apply Quiet; [lia | apply term_then_kill; lia | assumption].
    + apply Terminating; auto.
    + apply Terminating; auto.
  - (* Quiet *)
    destruct ev; step.
    + destruct cl; step; apply Quiet; auto.
    + destruct cl; step; apply Quiet; auto.
    + destruct cl; step; [|apply Quiet; auto].
      destruct tid, kid, (JS.is_zero_code code); try destruct err; step;
        (apply Quiet; [auto | auto | apply hd_error_app_some; assumption]).
    + destruct cl; step; [|apply Quiet; auto].
      destruct tid, kid; step;
        (apply Quiet; [auto | auto | apply hd_error_app_some; assumption]).
    + destruct (has_stdin L); step; [|apply Quiet; auto].
      destruct sl; step; [|apply Quiet; auto].
      destruct tid, kid; step;
        (apply Quiet; [auto | auto | apply hd_error_app_some; assumption]).
    + apply Quiet; auto; lia.
    + apply Quiet; auto.
    + apply Quiet; auto.
    + apply Quiet; auto.
Qed.

Lemma run_app L evs1 evs2 s : run L (evs1 ++ evs2) s = run L evs2 (run L evs1 s).
Proof. unfold run. apply fold_left_app. Qed.

Lemma run_Phase L evs s : Phase s -> Phase (run L evs s).
Proof.
  revert s. induction evs as [|ev evs IH]; intros s P; simpl; [assumption|].
  apply IH, deliver_Phase, P.
Qed.

Lemma after_Phase apiKey env L prompt model effort evs :
  Phase (after apiKey env L prompt model effort evs).
Proof. apply run_Phase, callCodex_Phase. Qed.

Section Frame.

Variable L : Launch.

(** What no event changes: the spawn request, what was written to the
    child's input, the closure constants and the set of listeners. *)
Lemma deliver_frame ev s :
  spawned (deliver L ev s) = spawned s /\
  stdin_ops (deliver L ev s) = stdin_ops s /\
  TIMEOUT_MS (deliver L ev s) = TIMEOUT_MS s /\
  timeoutId (deliver L ev s) = timeoutId s /\
  child_listeners (deliver L ev s) = child_listeners s /\
  stdin_listener (deliver L ev s) = stdin_listener s.
Proof.
  destruct s, ev; unfold deliver; crush; repeat split; reflexivity.
Qed.

Lemma run_frame evs s :
  spawned (run L evs s) = spawned s /\
  stdin_ops (run L evs s) = stdin_ops s /\
  TIMEOUT_MS (run L evs s) = TIMEOUT_MS s /\
  timeoutId (run L evs s) = timeoutId s /\
  child_listeners (run L evs s) = child_listeners s /\
  stdin_listener (run L evs s) = stdin_listener s.
Proof.
  revert s. induction evs as [|ev evs IH]; intros s; simpl; [tauto|].
  destruct (IH (deliver L ev s)) as (A & B & C & D & E & F).
  destruct (deliver_frame ev s) as (A' & B' & C' & D' & E' & F').
  repeat split; congruence.
Qed.

(** A settled promise stays as it is. *)
Lemma deliver_settled ev s o :
  promise s = Settled o -> promise (deliver L ev s) = Settled o.
Proof.
  destruct s, ev; unfold deliver; simpl; intros ->;
    crush; reflexivity.
Qed.

Lemma run_settled evs s o :
  promise s = Settled o -> promise (run L evs s) = Settled o.
Proof.
  revert s. induction evs as [|ev evs IH]; intros s H; simpl; [assumption|].
  apply IH, deliver_settled, H.
Qed.

(** The uncaught exceptions of the host never shrink, and only an
    "error" event without listener adds one. *)
Lemma deliver_uncaught ev s :
  uncaught (deliver L ev s) =
    match ev with
    | ProcError m =>
        if child_listeners s then uncaught s else (uncaught s ++ [m])%list
    | StdinError m =>
        if has_stdin L && negb (stdin_listener s)
        then (uncaught s ++ [m])%list else uncaught s
    | StdoutError m | StderrError m => (uncaught s ++ [m])%list
    | _ => uncaught s
    end.
Proof.
  destruct s, ev; unfold deliver; crush; reflexivity.
Qed.

End Frame.

(** ** The argument vector and the payload *)

Lemma callCodex_spawned apiKey env L prompt model effort :
  spawned (callCodex apiKey env L prompt model effort) =
    Some (mkSpawn "codex" (codex_args model effort)
            (env_with "OPENAI_API_KEY" apiKey env)).
Proof.
  unfold callCodex, new_promise, executor.
  destruct L as [[|] [w|] [e|]]; step; reflexivity.
Qed.

Lemma callCodex_stdin_ops apiKey env L prompt model effort :
  stdin_ops (callCodex apiKey env L prompt model effort) =
    expected_stdin_ops L prompt.
Proof.
  unfold callCodex, new_promise, executor, expected_stdin_ops.
  destruct L as [[|] [w|] [e|]]; step; reflexivity.
Qed.

Lemma due_timer_stdin_ops id ops s :
  due_timer id (set_stdin_ops ops s) = due_timer id s.
Proof. destruct s; reflexivity. Qed.

(** No listener and no timer callback reads what was written to the
    child's input. *)
Lemma deliver_stdin_ops L ev ops s :
  deliver L ev (set_stdin_ops ops s) = set_stdin_ops ops (deliver L ev s).
Proof.
  destruct ev; unfold deliver; rewrite ?due_timer_stdin_ops;
    destruct s; crush; reflexivity.
Qed.

Lemma run_stdin_ops L evs ops s :
  run L evs (set_stdin_ops ops s) = set_stdin_ops ops (run L evs s).
Proof.
  revert s. induction evs as [|ev evs IH]; intros s; simpl; [reflexivity|].
  now rewrite deliver_stdin_ops, IH.
Qed.

(** The payload is kept nowhere but in the record of what was written to
    the child's input. *)
Lemma callCodex_payload apiKey env L model effort p1 p2 :
  set_stdin_ops [] (callCodex apiKey env L p1 model effort) =
  set_stdin_ops [] (callCodex apiKey env L p2 model effort).
Proof.
  unfold callCodex, new_promise, executor.
  destruct L as [[|] [w|] [e|]]; step; reflexivity.
Qed.

(** C1, as stated, fails: a payload that reads like one of the fixed
    flags is an element of the argument vector.  With the prompt
    [--full-auto] the spawned argument vector contains the payload
    text. *)
Lemma argv_contains_flag_like_payload :
  exists sp,
    spawned (callCodex "key" [] healthy "--full-auto" "gpt-5-codex" "high") = Some sp
    /\ In "--full-auto" (argv sp).
Proof.
  eexists. split; [reflexivity|]. simpl. tauto.
Qed.

(** C1 (amended): at every moment of every invocation the program is
    [codex] and the argument vector is exactly
    [exec --full-auto -m <model> -c model_reasoning_effort=<effort>]; it
    is the same for any two payloads, whatever events have been
    delivered; the payload is an element of it exactly when it happens to
    equal one of these six payload-independent strings; and the payload
    itself is handed to the child's input stream only: apart from the
    record of what was written to that stream, two invocations that
    differ in the payload alone are in the same state after the same
    events. *)
Theorem argv_independent_of_payload
    apiKey env L model effort (p1 p2 : string) (evs1 evs2 : list Event) :
  option_map program (spawned (after apiKey env L p1 model effort evs1)) = Some "codex"
  /\ option_map argv (spawned (after apiKey env L p1 model effort evs1)) =
       Some [ "exec"; "--full-auto"; "-m"; model; "-c";
              "model_reasoning_effort=" ++ effort ]
  /\ spawned (after apiKey env L p1 model effort evs1) =
       spawned (after apiKey env L p2 model effort evs2)
  /\ (In p1 (codex_args model effort) <->
        p1 = "exec" \/ p1 = "--full-auto" \/ p1 = "-m" \/ p1 = model
        \/ p1 = "-c" \/ p1 = "model_reasoning_effort=" ++ effort)
  /\ stdin_ops (after apiKey env L p1 model effort evs1) = expected_stdin_ops L p1
  /\ set_stdin_ops [] (after apiKey env L p1 model effort evs1) =
       set_stdin_ops [] (after apiKey env L p2 model effort evs1).
Proof.
  assert (NI : set_stdin_ops [] (after apiKey env L p1 model effort evs1) =
               set_stdin_ops [] (after apiKey env L p2 model effort evs1)).
  { unfold after. rewrite <- !run_stdin_ops.
    now rewrite (callCodex_payload apiKey env L model effort p1 p2). }
  revert NI. unfold after.
  destruct (run_frame L evs1 (callCodex apiKey env L p1 model effort))
    as (S1 & O1 & _).
  destruct (run_frame L evs2 (callCodex apiKey env L p2 model effort))
    as (S2 & _).
  rewrite S1, S2, O1, !callCodex_spawned, callCodex_stdin_ops.
  intros NI. repeat split; try reflexivity; try exact NI.
  - simpl. intros H. repeat (destruct H as [H|H]; [symmetry in H; tauto|]).
    contradiction.
  - simpl. intros H. repeat (destruct H as [H|H]; [symmetry in H; tauto|]).
    symmetry in H; tauto.
Qed.

(** ** Exactly-once settlement *)

Lemma Phase_first_call s : Phase s -> promise s = first_call s.
Proof.
  intros P. destruct P; unfold first_call; simpl; try reflexivity;
    match goal with H : hd_error _ = Some _ |- _ => now rewrite H end.
Qed.

(** Once the termination delay has passed and Node runs timer 0, no
    invocation is left pending. *)
Lemma Phase_deadline L s :
  Phase s ->
  exists o,
    promise (run L [Elapse (node_delay (TIMEOUT_MS s)); Fire 0%nat] s) = Settled o.
Proof.
  intros P. destruct P.
  - cbn [run fold_left TIMEOUT_MS]. step.
    pose proof (node_delay_pos T) as HT.
    destruct (node_delay T <=? n + Z.max 0 (node_delay T)) eqn:E.
    + step. eexists. reflexivity.
    + apply Z.leb_gt in E. lia.
  - eexists. apply run_settled. reflexivity.
  - eexists. apply run_settled. reflexivity.
Qed.

(** C2: whatever events are delivered, in whatever order, the promise
    returned by [callCodex] holds at most one result, namely the argument
    of the first call of [resolve] or [reject]; once it holds a result
    every further event leaves that result as it is; and no invocation
    stays without a result: after any sequence of events, as soon as the
    termination delay has elapsed and Node has run the termination timer
    the promise is settled. *)
Theorem settles_exactly_once
    apiKey env L prompt model effort (evs : list Event) :
  promise (after apiKey env L prompt model effort evs) =
    first_call (after apiKey env L prompt model effort evs)
  /\ (forall o evs',
        promise (after apiKey env L prompt model effort evs) = Settled o ->
        promise (after apiKey env L prompt model effort (evs ++ evs')) = Settled o)
  /\ (exists o,
        promise
          (after apiKey env L prompt model effort
             (evs ++ [Elapse (node_delay
                                (TIMEOUT_MS (callCodex apiKey env L prompt model effort)));
                      Fire 0%nat]))
        = Settled o).
Proof.
  split; [|split].
  - apply Phase_first_call, after_Phase.
  - intros o evs' H. unfold after in *. rewrite run_app.
    apply run_settled, H.
  - unfold after. rewrite run_app.
    destruct (run_frame L evs (callCodex apiKey env L prompt model effort))
      as (_ & _ & HT & _).
    rewrite <- HT. apply Phase_deadline, run_Phase, callCodex_Phase.
Qed.

Lemma settles_exactly_once_witness :
  promise
    (after "key" [] healthy "review this" "gpt-5-codex" "high"
       ([StdoutData "fine"; Close (Some 0)]
          ++ [Close (Some 1); StdinError "EPIPE"; Elapse 300000; Fire 0%nat]))
  = Settled (Fulfilled "fine").
Proof.
  apply (proj1 (proj2 (settles_exactly_once "key" [] healthy "review this"
                         "gpt-5-codex" "high"
                         [StdoutData "fine"; Close (Some 0)]))).
  reflexivity.
Defined.

(** ** Timeout and escalation *)

(** A pending invocation is in the [Running] shape. *)
Lemma Phase_pending s :
  Phase s -> promise s = Pending ->
  0 <= now s /\
  s = mkState (now s) 1
        [mkTimer 0 OnTimeout (TIMEOUT_MS s) (node_delay (TIMEOUT_MS s))]
        (spawned s) (stdin_ops s) [] true true (TIMEOUT_MS s) (Some 0%nat) None
        (stdout s) (stderr s) Pending [] (console s) (uncaught s).
Proof.
  intros P H. destruct P; simpl in *; try discriminate. split; [assumption|reflexivity].
Qed.

(** Signals are only ever added at the end of the record. *)
Lemma deliver_signals L ev s :
  exists more, signals (deliver L ev s) = (signals s ++ more)%list.
Proof.
  destruct s, ev; unfold deliver; crush;
    solve [ exists []; now rewrite app_nil_r | eexists; reflexivity ].
Qed.

Lemma run_signals L evs s :
  exists more, signals (run L evs s) = (signals s ++ more)%list.
Proof.
  revert s. induction evs as [|ev evs IH]; intros s; simpl.
  - exists []. now rewrite app_nil_r.
  - destruct (IH (deliver L ev s)) as [m1 H1].
    destruct (deliver_signals L ev s) as [m2 H2].
    exists (m2 ++ m1)%list. now rewrite H1, H2, app_assoc.
Qed.

Lemma Phase_signals s : Phase s -> signals_ok (TIMEOUT_MS s) (signals s).
Proof.
  intros P. destruct P; simpl; [constructor | constructor; assumption | assumption].
Qed.

(** The value of the closure constant [TIMEOUT_MS]. *)
Lemma callCodex_TIMEOUT_MS apiKey env L prompt model effort :
  TIMEOUT_MS (callCodex apiKey env L prompt model effort) =
    JS.parseInt10 (JS.or_default (env_get "CODEX_TIMEOUT_MS" env) "300000").
Proof.
  unfold callCodex, new_promise, executor.
  destruct L as [[|] [w|] [e|]]; step; reflexivity.
Qed.

Lemma after_TIMEOUT_MS apiKey env L prompt model effort evs :
  TIMEOUT_MS (after apiKey env L prompt model effort evs) =
    JS.parseInt10 (JS.or_default (env_get "CODEX_TIMEOUT_MS" env) "300000").
Proof.
  unfold after.
  destruct (run_frame L evs (callCodex apiKey env L prompt model effort))
    as (_ & _ & HT & _).
  rewrite HT. apply callCodex_TIMEOUT_MS.
Qed.

(** After the termination timer has run at time [fired], the promise
    keeps the timeout rejection and the child has received the
    termination signal, followed at most by one kill signal sent no
    earlier than [SIGKILL_GRACE_MS] later. *)
Lemma after_timeout_fired L evs s fired :
  Phase s ->
  signals s = [(fired, SIGTERM)] ->
  promise s = Settled (Rejected (timeout_message (TIMEOUT_MS s))) ->
  promise (run L evs s) = Settled (Rejected (timeout_message (TIMEOUT_MS s)))
  /\ (signals (run L evs s) = [(fired, SIGTERM)]
      \/ exists killed,
           fired + SIGKILL_GRACE_MS <= killed
           /\ signals (run L evs s) = [(fired, SIGTERM); (killed, SIGKILL)]).
Proof.
  intros P Hsig Hp. split; [apply run_settled, Hp|].
  pose proof (Phase_signals _ (run_Phase L evs s P)) as Hok.
  destruct (run_signals L evs s) as [more Hmore].
  rewrite Hsig in Hmore. rewrite Hmore in *. simpl in Hok.
  inversion Hok; subst.
  - left. reflexivity.
  - right. exists killed. split; [assumption | reflexivity].
Qed.

(** C3, as stated, fails: the child never exits (no close event is ever
    delivered), yet after an error on the input stream the termination
    timer is cancelled, so that no signal is sent when the 300000 ms have
    passed and the result is the stdin failure, not a timeout. *)
Lemma no_timeout_after_stdin_error :
  let s := after "key" [] healthy "review this" "gpt-5-codex" "high"
             [StdinError "write EPIPE"; Elapse 300000; Fire 0%nat;
              Elapse 2000; Fire 1%nat] in
  now s = 302000
  /\ signals s = []
  /\ promise s = Settled (Rejected "Failed to write to codex stdin: write EPIPE").
Proof. repeat split. Qed.

(** C3 (amended): let [T] be [parseInt] of the [CODEX_TIMEOUT_MS]
    override, or of ["300000"] when that is unset or empty; the
    termination timer is due after [node_delay T] ms, which is [T] itself
    for [1 <= T <= 2147483647] (300000 by default).  If the invocation is
    still unresolved (no exit, spawn error or stdin error has been
    reported), the timer does nothing before it is due; when it runs, at
    a time [now] at which it is due, the child is sent SIGTERM, the kill
    timer is scheduled for [now + 2000], and the promise is rejected at
    once, without any event from the child, with the message
    [Codex process timed out after <T>ms], in which [T] is printed the
    way a template literal prints a number: the double that [parseInt]
    returned, with all its digits up to [2^53] and in its shortest
    digits above ([1e+21]), or [NaN] or [Infinity].  From then on every
    event leaves that rejection as it is; SIGKILL is never sent earlier
    than 2000 ms after SIGTERM, and is sent when the kill timer runs. *)
Theorem timeout_escalation apiKey env L prompt model effort (evs : list Event) :
  let T := JS.parseInt10 (JS.or_default (env_get "CODEX_TIMEOUT_MS" env) "300000") in
  let s := after apiKey env L prompt model effort evs in
  let s1 := deliver L (Fire 0%nat) s in
  promise s = Pending ->
  (env_get "CODEX_TIMEOUT_MS" env = None -> T = JS.JNum 300000)
  /\ (forall z, T = JS.JNum z -> 1 <= z <= TIMEOUT_MAX -> node_delay T = z)
  /\ (now s < node_delay T -> s1 = s)
  /\ (node_delay T <= now s ->
      signals s1 = [(now s, SIGTERM)]
      /\ timers s1 =
           [mkTimer 1 OnKillTimeout (JS.JNum 2000) (now s + 2000)]
      /\ promise s1 =
           Settled (Rejected ("Codex process timed out after "
                                ++ JS.numToString T ++ "ms"))
      /\ (forall evs',
            promise (run L evs' s1) = promise s1
            /\ (signals (run L evs' s1) = [(now s, SIGTERM)]
                \/ exists killed,
                     now s + 2000 <= killed
                     /\ signals (run L evs' s1) =
                          [(now s, SIGTERM); (killed, SIGKILL)]))
      /\ (forall d, 2000 <= d ->
            signals (run L [Elapse d; Fire 1%nat] s1) =
              [(now s, SIGTERM); (now s + d, SIGKILL)])).
Proof.
  intros T s s1 Hp.
  pose proof (after_TIMEOUT_MS apiKey env L prompt model effort evs) as HT.
  pose proof (after_Phase apiKey env L prompt model effort evs) as P.
  fold s in HT, P. fold T in HT.
  assert (P1 : Phase s1) by (apply deliver_Phase, P).
  split; [|split; [|split; [|]]].
  - intros E. unfold T. rewrite E. reflexivity.
  - intros z -> Hz. unfold node_delay.
    destruct (1 <=? z) eqn:A, (z <=? TIMEOUT_MAX) eqn:B; simpl; try reflexivity;
      (apply Z.leb_gt in A || apply Z.leb_gt in B); lia.
  - intros Hlt. destruct (Phase_pending s P Hp) as [_ Es].
    unfold s1. rewrite Es. unfold deliver, due_timer. step.
    rewrite HT. destruct (node_delay T <=? now s) eqn:E; [|reflexivity].
    apply Z.leb_le in E. lia.
  - intros Hdue. destruct (Phase_pending s P Hp) as [Hn Es].
    assert (E1 : s1 =
      mkState (now s) 2
        [mkTimer 1 OnKillTimeout (JS.JNum SIGKILL_GRACE_MS) (now s + SIGKILL_GRACE_MS)]
        (spawned s) (stdin_ops s) [(now s, SIGTERM)] true true T (Some 0%nat)
        (Some 1%nat) (stdout s) (stderr s)
        (Settled (Rejected (timeout_message T))) [Rejected (timeout_message T)]
        (console s) (uncaught s)).
    { unfold s1. rewrite Es. unfold deliver, due_timer. step.
      rewrite HT. destruct (node_delay T <=? now s) eqn:E.
      - step. reflexivity.
      - apply Z.leb_gt in E. lia. }
    assert (Hsig : signals s1 = [(now s, SIGTERM)]) by (rewrite E1; reflexivity).
    assert (Hpr : promise s1 = Settled (Rejected (timeout_message (TIMEOUT_MS s1))))
      by (rewrite E1; reflexivity).
    assert (HT1 : TIMEOUT_MS s1 = T) by (rewrite E1; reflexivity).
    split; [assumption|]. split; [rewrite E1; reflexivity|].
    split; [rewrite Hpr, HT1; reflexivity|]. split.
    + intros evs'.
      destruct (after_timeout_fired L evs' s1 (now s) P1 Hsig Hpr) as [A B].
      split; [rewrite A; symmetry; exact Hpr | exact B].
    + intros d Hd. rewrite E1. cbn [run fold_left]. step.
      destruct (now s + SIGKILL_GRACE_MS <=? now s + Z.max 0 d) eqn:E.
      * step. replace (Z.max 0 d) with d by lia. reflexivity.
      * apply Z.leb_gt in E. unfold SIGKILL_GRACE_MS in E. lia.
Qed.

Lemma timeout_escalation_witness :
  let s := after "key" [] healthy "review this" "gpt-5-codex" "high"
             [StdoutData "partial"; Elapse 300000] in
  let s' := after "key" [("CODEX_TIMEOUT_MS", "1000000000000000000000")] healthy
              "review this" "gpt-5-codex" "high" [Elapse 1] in
  promise s = Pending
  /\ signals (deliver healthy (Fire 0%nat) s) = [(300000, SIGTERM)]
  /\ promise (deliver healthy (Fire 0%nat) s) =
       Settled (Rejected "Codex process timed out after 300000ms")
  /\ promise s' = Pending
  /\ signals (deliver healthy (Fire 0%nat) s') = [(1, SIGTERM)]
  /\ promise (deliver healthy (Fire 0%nat) s') =
       Settled (Rejected "Codex process timed out after 1e+21ms").
Proof.
  split; [reflexivity|].
  destruct (timeout_escalation "key" [] healthy "review this" "gpt-5-codex" "high"
              [StdoutData "partial"; Elapse 300000] eq_refl)
    as (_ & _ & _ & H).
  destruct (timeout_escalation "key"
              [("CODEX_TIMEOUT_MS", "1000000000000000000000")] healthy
              "review this" "gpt-5-codex" "high" [Elapse 1] eq_refl)
    as (_ & _ & _ & H').
  destruct H as (A & _ & C & _); [vm_compute; discriminate|].
  destruct H' as (A' & _ & C' & _); [vm_compute; discriminate|].
  repeat split; assumption.
Defined.

(** ** Output capture *)

Lemma stdout_chunks_cons ev evs :
  stdout_chunks (ev :: evs) = (stdout_chunks [ev] ++ stdout_chunks evs)%list.
Proof. unfold stdout_chunks. simpl. now rewrite app_nil_r. Qed.

Lemma stderr_chunks_cons ev evs :
  stderr_chunks (ev :: evs) = (stderr_chunks [ev] ++ stderr_chunks evs)%list.
Proof. unfold stderr_chunks. simpl. now rewrite app_nil_r. Qed.

Lemma deliver_buffers L ev s :
  child_listeners s = true ->
  stdout (deliver L ev s) = stdout s ++ Text.join (stdout_chunks [ev])
  /\ stderr (deliver L ev s) = stderr s ++ Text.join (stderr_chunks [ev]).
Proof.
  destruct s, ev; unfold deliver; simpl; intros ->; crush;
    rewrite ?text_append_empty_r; split; reflexivity.
Qed.

Lemma run_buffers L evs s :
  child_listeners s = true ->
  stdout (run L evs s) = stdout s ++ Text.join (stdout_chunks evs)
  /\ stderr (run L evs s) = stderr s ++ Text.join (stderr_chunks evs).
Proof.
  revert s. induction evs as [|ev evs IH]; intros s H.
  - simpl. rewrite !text_append_empty_r. split; reflexivity.
  - change (run L (ev :: evs) s) with (run L evs (deliver L ev s)).
    destruct (deliver_frame L ev s) as (_ & _ & _ & _ & Hc & _).
    destruct (IH (deliver L ev s)) as [A B]; [congruence|].
    destruct (deliver_buffers L ev s H) as [A1 B1].
    rewrite A, B, A1, B1, !text_append_assoc.
    rewrite (stdout_chunks_cons ev evs), (stderr_chunks_cons ev evs).
    rewrite !text_join_app. split; reflexivity.
Qed.

Lemma callCodex_buffers apiKey env L prompt model effort :
  stdout (callCodex apiKey env L prompt model effort) = ""
  /\ stderr (callCodex apiKey env L prompt model effort) = "".
Proof.
  unfold callCodex, new_promise, executor.
  destruct L as [[|] [w|] [e|]]; step; split; reflexivity.
Qed.

(** While the invocation is pending, the two buffers hold everything the
    child has written so far, in order of arrival. *)
Lemma pending_buffers apiKey env L prompt model effort evs :
  promise (after apiKey env L prompt model effort evs) = Pending ->
  stdout (after apiKey env L prompt model effort evs) = Text.join (stdout_chunks evs)
  /\ stderr (after apiKey env L prompt model effort evs) = Text.join (stderr_chunks evs).
Proof.
  intros Hp.
  pose proof (after_Phase apiKey env L prompt model effort evs) as P.
  destruct (Phase_pending _ P Hp) as [_ Es].
  assert (Hc : child_listeners (after apiKey env L prompt model effort evs) = true)
    by (rewrite Es; reflexivity).
  unfold after in *.
  destruct (run_frame L evs (callCodex apiKey env L prompt model effort))
    as (_ & _ & _ & _ & Hc' & _).
  destruct (run_buffers L evs (callCodex apiKey env L prompt model effort)) as [A B];
    [congruence|].
  destruct (callCodex_buffers apiKey env L prompt model effort) as [A0 B0].
  rewrite A, B, A0, B0. split; reflexivity.
Qed.

(** ** Natural exit *)

(** C4, as stated, fails: the child writes [ok], an error is reported on
    its input stream, and it then exits with code 0 while the termination
    timer has never run; the result is the stdin failure, not a success
    carrying [ok]. *)
Lemma exit_zero_after_stdin_error :
  let s := after "key" [] healthy "review this" "gpt-5-codex" "high"
             [StdoutData "ok"; StdinError "write EPIPE"; Close (Some 0)] in
  stdout s = "ok"
  /\ signals s = []
  /\ promise s = Settled (Rejected "Failed to write to codex stdin: write EPIPE").
Proof. repeat split. Qed.

(** C4 (amended): when the child closes with exit code 0 while the
    invocation is still unresolved (the termination timer has not run and
    no stdin or spawn failure has been reported), the promise is
    fulfilled with exactly the stdout chunks received so far,
    concatenated in order of arrival; this is the only call of [resolve]
    or [reject] so far, no timer is left, and the stderr text goes
    nowhere but to one line of the error log, written when it is not
    empty. *)
Theorem exit_zero_resolves_stdout
    apiKey env L prompt model effort (evs : list Event) :
  let s := after apiKey env L prompt model effort evs in
  let s' := deliver L (Close (Some 0)) s in
  promise s = Pending ->
  promise s' = Settled (Fulfilled (Text.join (stdout_chunks evs)))
  /\ settle_calls s' = [Fulfilled (Text.join (stdout_chunks evs))]
  /\ timers s' = []
  /\ console s' =
       (console s ++
          if JS.truthy (Text.join (stderr_chunks evs))
          then [stderr_log_line (Text.join (stderr_chunks evs))]
          else [])%list.
Proof.
  intros s s' Hp.
  destruct (pending_buffers apiKey env L prompt model effort evs Hp) as [Ho He].
  pose proof (after_Phase apiKey env L prompt model effort evs) as P.
  fold s in Ho, He, P.
  destruct (Phase_pending s P Hp) as [_ Es].
  unfold s'. rewrite Es. unfold deliver. step. rewrite Ho, He.
  destruct (Text.join (stderr_chunks evs)); step;
    rewrite ?app_nil_r; repeat split; reflexivity.
Qed.

Lemma exit_zero_resolves_stdout_witness :
  promise
    (deliver healthy (Close (Some 0))
       (after "key" [] healthy "review this" "gpt-5-codex" "high"
          [StdoutData "o"; StderrData "warn"; StdoutData "k"]))
  = Settled (Fulfilled "ok").
Proof.
  exact (proj1 (exit_zero_resolves_stdout "key" [] healthy "review this"
                  "gpt-5-codex" "high"
                  [StdoutData "o"; StderrData "warn"; StdoutData "k"] eq_refl)).
Defined.

(** C5, as stated, fails: the child writes [bad input] to stderr and
    exits with code 2, but an error on its input stream was reported
    first; the result is the stdin failure, whose message does not carry
    the stderr text. *)
Lemma nonzero_exit_after_stdin_error :
  let s := after "key" [] healthy "review this" "gpt-5-codex" "high"
             [StderrData "bad input"; StdinError "write EPIPE"; Close (Some 2)] in
  stderr s = "bad input"
  /\ promise s = Settled (Rejected "Failed to write to codex stdin: write EPIPE")
  /\ ~ Text.Contains "bad input" "Failed to write to codex stdin: write EPIPE".
Proof.
  repeat split. intros H. apply text_Contains_occurs in H. discriminate H.
Qed.

(** C5 (amended): when the child closes with a non-zero exit code while
    the invocation is still unresolved (no timeout, stdin failure or
    spawn failure has been reported before), the promise is rejected with
    [Codex exited with code <code>:] followed by a line break and the
    stderr chunks received so far in order of arrival; the message
    contains the decimal exit code and the whole stderr text, and no
    timer is left. *)
Theorem nonzero_exit_reports_code_and_stderr
    apiKey env L prompt model effort (evs : list Event) (code : Z) :
  let s := after apiKey env L prompt model effort evs in
  let s' := deliver L (Close (Some code)) s in
  let message :=
    "Codex exited with code " ++ JS.numToString (JS.JNum code) ++ ":"
      ++ newline ++ Text.join (stderr_chunks evs) in
  promise s = Pending ->
  code <> 0 ->
  promise s' = Settled (Rejected message)
  /\ Text.Contains (JS.numToString (JS.JNum code)) message
  /\ Text.Contains (Text.join (stderr_chunks evs)) message
  /\ timers s' = [].
Proof.
  intros s s' message Hp Hc.
  destruct (pending_buffers apiKey env L prompt model effort evs Hp) as [_ He].
  pose proof (after_Phase apiKey env L prompt model effort evs) as P.
  fold s in He, P.
  destruct (Phase_pending s P Hp) as [_ Es].
  assert (Hz : JS.is_zero_code (Some code) = false) by (apply Z.eqb_neq, Hc).
  repeat split.
  - unfold s'. rewrite Es. unfold deliver. step. rewrite Hz. step.
    rewrite He. reflexivity.
  - exists "Codex exited with code ", (":" ++ newline ++ Text.join (stderr_chunks evs)).
    reflexivity.
  - exists ("Codex exited with code " ++ JS.numToString (JS.JNum code) ++ ":" ++ newline), "".
    unfold message. rewrite text_append_empty_r, !text_append_assoc. reflexivity.
  - unfold s'. rewrite Es. unfold deliver. step. rewrite Hz. step. reflexivity.
Qed.

Lemma nonzero_exit_reports_code_and_stderr_witness :
  promise
    (deliver healthy (Close (Some 2))
       (after "key" [] healthy "review this" "gpt-5-codex" "high"
          [StderrData "bad input"]))
  = Settled (Rejected ("Codex exited with code 2:" ++ newline ++ "bad input")).
Proof.
  refine (proj1 (nonzero_exit_reports_code_and_stderr "key" [] healthy
                   "review this" "gpt-5-codex" "high"
                   [StderrData "bad input"] 2 eq_refl _)).
  discriminate.
Defined.

(** ** Timers *)

(** A launch that settles the promise leaves no timer. *)
Lemma callCodex_timers apiKey env L prompt model effort :
  promise (callCodex apiKey env L prompt model effort) <> Pending ->
  timers (callCodex apiKey env L prompt model effort) = [].
Proof.
  unfold callCodex, new_promise, executor.
  destruct L as [[|] [w|] [e|]]; step; intros H; try reflexivity; now elim H.
Qed.

(** C8, as stated, fails on the timeout path: when the termination timer
    resolves the invocation it schedules the kill timer instead of
    cancelling it, and 2000 ms later that timer runs, after the
    invocation has resolved, and sends SIGKILL. *)
Lemma kill_timer_runs_after_resolution :
  let s1 := after "key" [] healthy "review this" "gpt-5-codex" "high"
              [Elapse 300000; Fire 0%nat] in
  let s2 := run healthy [Elapse 2000; Fire 1%nat] s1 in
  promise s1 = Settled (Rejected "Codex process timed out after 300000ms")
  /\ timers s1 = [mkTimer 1 OnKillTimeout (JS.JNum 2000) 302000]
  /\ signals s1 = [(300000, SIGTERM)]
  /\ signals s2 = [(300000, SIGTERM); (302000, SIGKILL)]
  /\ promise s2 = promise s1.
Proof. repeat split. Qed.

(** C8 (amended): in every state of every invocation at most one
    termination timer and at most one kill-escalation timer are pending.
    The termination timer is pending exactly as long as the invocation is
    unresolved, so it never runs after resolution.  Whenever an event
    other than a timer resolves the invocation (close, child error, stdin
    error), and when the launch itself fails (no input stream, or
    [write]/[end] throws), no timer at all is left.  Only on the timeout
    path a timer survives resolution: the kill-escalation timer, pending
    only while the result is the timeout rejection. *)
Theorem timer_discipline apiKey env L prompt model effort (evs : list Event) :
  let s0 := callCodex apiKey env L prompt model effort in
  let s := after apiKey env L prompt model effort evs in
  (length (pending_timers OnTimeout s) <= 1)%nat
  /\ (length (pending_timers OnKillTimeout s) <= 1)%nat
  /\ (promise s = Pending <-> pending_timers OnTimeout s <> [])
  /\ (pending_timers OnKillTimeout s <> [] ->
      promise s = Settled (Rejected (timeout_message (TIMEOUT_MS s))))
  /\ (forall ev,
        promise s = Pending ->
        (forall id, ev <> Fire id) ->
        promise (deliver L ev s) <> Pending ->
        timers (deliver L ev s) = [])
  /\ (promise s0 <> Pending -> timers s0 = []).
Proof.
  intros s0 s.
  pose proof (after_Phase apiKey env L prompt model effort evs) as P.
  fold s in P.
  assert (T0 : promise s0 <> Pending -> timers s0 = [])
    by apply callCodex_timers.
  clearbody s s0.
  split; [|split; [|split; [|split; [|split; [|exact T0]]]]].
  - destruct P; simpl; lia.
  - destruct P; simpl; lia.
  - destruct P; simpl; split; intros Hx; try discriminate; try reflexivity;
      now elim Hx.
  - destruct P; simpl; intros Hx; try reflexivity; now elim Hx.
  - intros ev Hp Hev.
    destruct P; simpl in Hp; try discriminate.
    destruct ev; unfold deliver; crush; intros Hs;
      try (now elim Hs); try reflexivity;
      exfalso; eapply Hev; reflexivity.
Qed.

Lemma timer_discipline_witness :
  timers
    (deliver healthy (ProcError "spawn codex ENOENT")
       (after "key" [] healthy "review this" "gpt-5-codex" "high" [Elapse 10]))
  = [].
Proof.
  refine (proj1 (proj2 (proj2 (proj2 (proj2
            (timer_discipline "key" [] healthy "review this" "gpt-5-codex"
               "high" [Elapse 10])))))
            (ProcError "spawn codex ENOENT") eq_refl _ _).
  - intros id. discriminate.
  - discriminate.
Defined.

(** ** Launch without an input stream *)

Lemma no_stdin_launch apiKey env L prompt model effort :
  has_stdin L = false ->
  callCodex apiKey env L prompt model effort =
    mkState 0 1 []
      (Some (mkSpawn "codex" (codex_args model effort)
               (env_with "OPENAI_API_KEY" apiKey env)))
      [] [] false false
      (JS.parseInt10 (JS.or_default (env_get "CODEX_TIMEOUT_MS" env) "300000"))
      (Some 0%nat) None "" ""
      (Settled (Rejected stdin_unavailable_message))
      [Rejected stdin_unavailable_message] [] [].
Proof.
  unfold callCodex, new_promise, executor.
  destruct L as [[|] w e]; simpl; intros H; [discriminate|]. step. reflexivity.
Qed.

Lemma no_stdin_deliver L ev s0 s :
  has_stdin L = false ->
  child_listeners s0 = false ->
  timers s0 = [] ->
  s = later_only s0 s ->
  deliver L ev s = later_only s0 (deliver L ev s).
Proof.
  intros HL Hc Ht Hs. rewrite Hs. clear Hs. unfold later_only.
  destruct s0; simpl in Hc, Ht; subst.
  destruct ev; unfold deliver, due_timer; rewrite ?HL; step; reflexivity.
Qed.

Lemma no_stdin_run L evs s0 s :
  has_stdin L = false ->
  child_listeners s0 = false ->
  timers s0 = [] ->
  s = later_only s0 s ->
  run L evs s = later_only s0 (run L evs s).
Proof.
  intros HL Hc Ht. revert s.
  induction evs as [|ev evs IH]; intros s Hs; simpl; [assumption|].
  apply IH. apply no_stdin_deliver; assumption.
Qed.

(** C7, as stated, fails in its remark on every exit path: with a
    1000 ms override the invocation leaves through the timeout path with
    the kill-escalation timer scheduled, not cancelled, so a timer of the
    invocation is still pending after it has resolved. *)
Lemma timeout_exit_keeps_kill_timer :
  let s := after "key" [("CODEX_TIMEOUT_MS", "1000")] healthy "review this"
             "gpt-5-codex" "high" [Elapse 1000; Fire 0%nat] in
  promise s = Settled (Rejected "Codex process timed out after 1000ms")
  /\ timers s = [mkTimer 1 OnKillTimeout (JS.JNum 2000) 3000]
  /\ killTimeoutId s = Some 1%nat.
Proof. repeat split. Qed.

(** C7 (amended): if [codex.stdin] is missing at launch, [callCodex]
    rejects at once with [Codex stdin is not available] and does nothing
    more: the termination timer is cancelled, no kill timer was ever
    scheduled, no listener is registered, nothing is written to the child
    and no signal is sent, and every later state is the launch state
    except for the clock and for "error" events of the child, which find
    no listener.  On the other exit paths no timer is left either, apart
    from the timeout path, where the kill-escalation timer stays
    pending. *)
Theorem stdin_unavailable_fast_path
    apiKey env L prompt model effort (evs : list Event) :
  let s0 := callCodex apiKey env L prompt model effort in
  let s := after apiKey env L prompt model effort evs in
  has_stdin L = false ->
  promise s0 = Settled (Rejected "Codex stdin is not available")
  /\ s = later_only s0 s
  /\ promise s = promise s0
  /\ settle_calls s = [Rejected "Codex stdin is not available"]
  /\ timers s = []
  /\ killTimeoutId s = None
  /\ child_listeners s = false
  /\ stdin_listener s = false
  /\ stdin_ops s = []
  /\ signals s = []
  /\ (forall L' evs',
        let s' := after apiKey env L' prompt model effort evs' in
        promise s' = Pending
        \/ timers s' = []
        \/ exists due,
             timers s' = [mkTimer 1 OnKillTimeout (JS.JNum 2000) due]
             /\ promise s' = Settled (Rejected (timeout_message (TIMEOUT_MS s')))).
Proof.
  intros s0 s HL.
  pose proof (no_stdin_launch apiKey env L prompt model effort HL) as E0.
  fold s0 in E0.
  assert (Es : s = later_only s0 s).
  { unfold s, after. fold s0. apply no_stdin_run; try assumption;
      rewrite E0; reflexivity. }
  split; [rewrite E0; reflexivity|].
  split; [exact Es|].
  repeat split; try (rewrite Es, E0; reflexivity).
  intros L' evs' s'.
  pose proof (after_Phase apiKey env L' prompt model effort evs') as P.
  fold s' in P. destruct P; simpl.
  - left. reflexivity.
  - right. right. eexists. split; reflexivity.
  - right. left. reflexivity.
Qed.

Lemma stdin_unavailable_fast_path_witness :
  timers
    (after "key" [] (mkLaunch false None None) "review this" "gpt-5-codex" "high"
       [Elapse 300000; Fire 0%nat; Close None])
  = []
  /\ promise
       (after "key" [] (mkLaunch false None None) "review this" "gpt-5-codex" "high"
          [Elapse 300000; Fire 0%nat; Close None])
     = Settled (Rejected "Codex stdin is not available").
Proof.
  destruct (stdin_unavailable_fast_path "key" [] (mkLaunch false None None)
              "review this" "gpt-5-codex" "high"
              [Elapse 300000; Fire 0%nat; Close None] eq_refl)
    as (A & _ & B & _ & C & _).
  split; [exact C | rewrite B; exact A].
Defined.

(** ** The timeout override *)

(** C10, as stated, fails: [+5000] and a value with a leading space do
    not start with a digit, yet [parseInt] reads 5000 from them and the
    termination timer is scheduled with that delay, not with [NaN]. *)
Lemma signed_override_is_parsed :
  let s0 := callCodex "key" [("CODEX_TIMEOUT_MS", "+5000")] healthy "review this"
              "gpt-5-codex" "high" in
  JS.starts_with_digit "+5000" = false
  /\ TIMEOUT_MS s0 = JS.JNum 5000
  /\ timers s0 = [mkTimer 0 OnTimeout (JS.JNum 5000) 5000]
  /\ JS.starts_with_digit " 5000" = false
  /\ JS.parseInt10 " 5000" = JS.JNum 5000.
Proof. repeat split. Qed.

(** C10 (amended): the closure constant [TIMEOUT_MS] is 300000 when
    [CODEX_TIMEOUT_MS] is unset or empty, and otherwise whatever
    [parseInt] makes of the value; the default is not restored for a
    malformed value.  [parseInt] yields [NaN] exactly when the value,
    after its leading white space and one optional sign, does not go on
    with a decimal digit; the termination timer is then scheduled with
    the delay [NaN], which Node runs after 1 ms, and the timeout message
    reads [timed out after NaNms]. *)
Theorem timeout_override_parsing apiKey env L prompt model effort :
  let s0 := callCodex apiKey env L prompt model effort in
  let v := env_get "CODEX_TIMEOUT_MS" env in
  (v = None \/ v = Some "" -> TIMEOUT_MS s0 = JS.JNum 300000)
  /\ (forall x, v = Some x -> x <> "" -> TIMEOUT_MS s0 = JS.parseInt10 x)
  /\ (forall x,
        JS.parseInt10 x = JS.NaN <->
        JS.starts_with_digit (snd (JS.split_sign (JS.trim_start x))) = false)
  /\ (has_stdin L = true -> write_throws L = None -> end_throws L = None ->
      timers s0 =
        [mkTimer 0 OnTimeout (TIMEOUT_MS s0) (node_delay (TIMEOUT_MS s0))])
  /\ (TIMEOUT_MS s0 = JS.NaN ->
      node_delay (TIMEOUT_MS s0) = 1
      /\ timeout_message (TIMEOUT_MS s0) = "Codex process timed out after NaNms").
Proof.
  intros s0 v.
  pose proof (callCodex_TIMEOUT_MS apiKey env L prompt model effort) as HT.
  fold s0 v in HT.
  split; [|split; [|split; [|split]]].
  - intros [E|E]; rewrite HT, E; reflexivity.
  - intros x E Hx. rewrite HT, E. destruct x; [now elim Hx | reflexivity].
  - intros x. unfold JS.parseInt10.
    destruct (JS.split_sign (JS.trim_start x)) as [sign body]; simpl.
    destruct (JS.starts_with_digit body); split; intros H;
      try discriminate; try reflexivity.
    now apply of_Z_not_NaN in H.
  - intros H1 H2 H3. unfold s0, callCodex, new_promise, executor.
    destruct L as [i w e]; simpl in H1, H2, H3; subst. step. reflexivity.
  - intros E. rewrite E. split; reflexivity.
Qed.

Lemma timeout_override_parsing_witness :
  TIMEOUT_MS
    (callCodex "key" [("CODEX_TIMEOUT_MS", "five minutes")] healthy "review this"
       "gpt-5-codex" "high")
  = JS.NaN
  /\ timers
       (callCodex "key" [("CODEX_TIMEOUT_MS", "five minutes")] healthy
          "review this" "gpt-5-codex" "high")
     = [mkTimer 0 OnTimeout JS.NaN 1].
Proof.
  destruct (timeout_override_parsing "key" [("CODEX_TIMEOUT_MS", "five minutes")]
              healthy "review this" "gpt-5-codex" "high")
    as (_ & A & _ & B & _).
  split.
  - rewrite (A "five minutes" eq_refl); [reflexivity | discriminate].
  - rewrite (B eq_refl eq_refl eq_refl). reflexivity.
Defined.

(** ** Failures of the input stream *)

Lemma callCodex_listeners apiKey env L prompt model effort :
  stdin_listener (callCodex apiKey env L prompt model effort) = has_stdin L
  /\ uncaught (callCodex apiKey env L prompt model effort) = [].
Proof.
  unfold callCodex, new_promise, executor.
  destruct L as [[|] [w|] [e|]]; step; split; reflexivity.
Qed.

Lemma callCodex_write_throws apiKey env L prompt model effort t :
  has_stdin L = true ->
  write_throws L = Some t \/ (write_throws L = None /\ end_throws L = Some t) ->
  promise (callCodex apiKey env L prompt model effort) =
    Settled (Rejected (write_failed_message t))
  /\ timers (callCodex apiKey env L prompt model effort) = []
  /\ child_listeners (callCodex apiKey env L prompt model effort) = false.
Proof.
  unfold callCodex, new_promise, executor.
  destruct L as [i w e]; simpl. intros -> [H|[H1 H2]]; subst; [destruct e|];
    step; repeat split; reflexivity.
Qed.

Lemma deliver_stdin_error L m s :
  has_stdin L = true ->
  stdin_listener s = true ->
  settle_calls (deliver L (StdinError m) s) =
    (settle_calls s ++ [Rejected (stdin_error_message m)])%list
  /\ (promise s = Pending ->
      promise (deliver L (StdinError m) s) = Settled (Rejected (stdin_error_message m))).
Proof.
  destruct s; unfold deliver; simpl; intros -> ->; crush; split;
    try reflexivity; intros H; try discriminate; reflexivity.
Qed.

(** C6: when the child has an input stream, the "error" listener is the
    first thing [callCodex] does with it, before [write] and [end], and
    it stays registered.  An error event of the stream, whenever it
    comes, is therefore handled: the listener calls [reject] with
    [Failed to write to codex stdin: <message>], which is the result of
    the invocation if it was still unresolved, and the host records no
    uncaught exception.  A [write] or [end] that throws is caught by the
    guard around the two calls and turned into the rejection
    [Failed to write prompt: <message>], again without an uncaught
    exception. *)
Theorem stdin_failure_is_converted
    apiKey env L prompt model effort (evs : list Event) (m : string) :
  let s0 := callCodex apiKey env L prompt model effort in
  let s := after apiKey env L prompt model effort evs in
  let s' := deliver L (StdinError m) s in
  has_stdin L = true ->
  hd_error (stdin_ops s) = Some StdinOnError
  /\ stdin_listener s = true
  /\ settle_calls s' =
       (settle_calls s ++ [Rejected (stdin_error_message m)])%list
  /\ (promise s = Pending ->
      promise s' = Settled (Rejected ("Failed to write to codex stdin: " ++ m)))
  /\ uncaught s' = uncaught s
  /\ uncaught s0 = []
  /\ (forall t,
        write_throws L = Some t \/ (write_throws L = None /\ end_throws L = Some t) ->
        promise s0 = Settled (Rejected ("Failed to write prompt: " ++ JS.thrown_text t))).
Proof.
  intros s0 s s' HL.
  destruct (run_frame L evs s0) as (_ & Hops & _ & _ & _ & Hsl).
  destruct (callCodex_listeners apiKey env L prompt model effort) as [Hl0 Hu0].
  fold s0 in Hl0, Hu0.
  assert (Hl : stdin_listener s = true) by (unfold s, after; fold s0; congruence).
  destruct (deliver_stdin_error L m s HL Hl) as [A B].
  split; [|split; [exact Hl|split; [exact A|split; [exact B|split; [|split]]]]].
  - unfold s, after. fold s0. rewrite Hops. unfold s0.
    rewrite callCodex_stdin_ops. unfold expected_stdin_ops. rewrite HL. reflexivity.
  - unfold s'. rewrite deliver_uncaught, HL, Hl. reflexivity.
  - exact Hu0.
  - intros t Ht.
    apply (callCodex_write_throws apiKey env L prompt model effort t HL Ht).
Qed.

Lemma stdin_failure_is_converted_witness :
  promise
    (deliver healthy (StdinError "write EPIPE")
       (after "key" [] healthy "review this" "gpt-5-codex" "high" [Elapse 3]))
  = Settled (Rejected "Failed to write to codex stdin: write EPIPE")
  /\ promise
       (callCodex "key" [] (mkLaunch true (Some (JS.ErrorObject "write after end")) None)
          "review this" "gpt-5-codex" "high")
     = Settled (Rejected "Failed to write prompt: write after end").
Proof.
  split.
  - destruct (stdin_failure_is_converted "key" [] healthy "review this"
                "gpt-5-codex" "high" [Elapse 3] "write EPIPE" eq_refl)
      as (_ & _ & _ & A & _).
    exact (A eq_refl).
  - destruct (stdin_failure_is_converted "key" []
                (mkLaunch true (Some (JS.ErrorObject "write after end")) None)
                "review this" "gpt-5-codex" "high" [] "" eq_refl)
      as (_ & _ & _ & _ & _ & _ & A).
    apply (A (JS.ErrorObject "write after end")). left. reflexivity.
Defined.

(** ** A close event without exit code *)

(** Only the close event of a child that exited with code 0 fulfils the
    promise. *)
Lemma deliver_fulfilled L ev s :
  zero_close ev = false -> fulfilled s = false ->
  fulfilled (deliver L ev s) = false.
Proof.
  destruct s, ev; unfold deliver, fulfilled; simpl; intros Hz Hf;
    try rewrite Hz; crush; try assumption; try reflexivity; try discriminate.
Qed.

Lemma run_fulfilled L evs s :
  existsb zero_close evs = false -> fulfilled s = false ->
  fulfilled (run L evs s) = false.
Proof.
  revert s. induction evs as [|ev evs IH]; intros s Hz Hf; simpl in *; [assumption|].
  apply orb_false_iff in Hz as [H1 H2].
  apply IH; [assumption|]. apply deliver_fulfilled; assumption.
Qed.

Lemma callCodex_fulfilled apiKey env L prompt model effort :
  fulfilled (callCodex apiKey env L prompt model effort) = false.
Proof.
  unfold callCodex, new_promise, executor.
  destruct L as [[|] [w|] [e|]]; step; reflexivity.
Qed.

Lemma deliver_close_null L s :
  child_listeners s = true ->
  settle_calls (deliver L (Close None) s) =
    (settle_calls s ++ [Rejected (exit_message None (stderr s))])%list
  /\ (promise s = Pending ->
      promise (deliver L (Close None) s) =
        Settled (Rejected (exit_message None (stderr s)))).
Proof.
  destruct s; unfold deliver, on_close; cbn [JS.is_zero_code child_listeners];
    intros ->; crush; split;
    try reflexivity; intros H; try discriminate; reflexivity.
Qed.

(** After a close event the promise is settled, whatever state it
    arrives in. *)
Lemma close_settles L code s :
  Phase s -> promise (deliver L (Close code) s) <> Pending.
Proof.
  intros P. destruct P; unfold deliver; crush; discriminate.
Qed.

(** C9: a close event whose exit code is [null] takes the branch of the
    non-zero codes.  The listener calls [reject] with
    [Codex exited with code null:] followed by a line break and the
    stderr buffer, a message that contains [null] and the whole stderr
    text; if the invocation was still unresolved this is its result, with
    the stderr chunks received so far.  The event never fulfils the
    promise, and an invocation none of whose close events reports code 0
    is never fulfilled, neither before nor after this event: once the
    close event with [null] has been delivered its result is a
    rejection. *)
Theorem null_exit_code_is_failure
    apiKey env L prompt model effort (evs : list Event) :
  let s := after apiKey env L prompt model effort evs in
  let s' := deliver L (Close None) s in
  (forall evs',
     existsb zero_close (evs ++ evs') = false ->
     fulfilled (run L evs' s') = false)
  /\ (existsb zero_close evs = false ->
      exists message, promise s' = Settled (Rejected message))
  /\ (forall v, promise s' = Settled (Fulfilled v) -> promise s = Settled (Fulfilled v))
  /\ (child_listeners s = true ->
      settle_calls s' =
        (settle_calls s ++ [Rejected (exit_message None (stderr s))])%list)
  /\ (promise s = Pending ->
      promise s' =
        Settled (Rejected ("Codex exited with code null:" ++ newline
                             ++ Text.join (stderr_chunks evs))))
  /\ (forall err,
        Text.Contains "null" ("Codex exited with code null:" ++ newline ++ err)
        /\ Text.Contains err ("Codex exited with code null:" ++ newline ++ err)).
Proof.
  intros s s'.
  split; [|split; [|split; [|split; [|split]]]].
  - intros evs' Hz. rewrite existsb_app in Hz.
    apply orb_false_iff in Hz as [H1 H2].
    apply run_fulfilled; [assumption|].
    apply deliver_fulfilled; [reflexivity|].
    apply run_fulfilled; [assumption | apply callCodex_fulfilled].
  - intros Hz.
    assert (F : fulfilled s' = false).
    { apply deliver_fulfilled; [reflexivity|].
      apply run_fulfilled; [assumption | apply callCodex_fulfilled]. }
    pose proof (close_settles L None s
                  (after_Phase apiKey env L prompt model effort evs)) as N.
    fold s' in N. unfold fulfilled in F.
    destruct (promise s') as [|[v|m]]; [now elim N | discriminate | now exists m].
  - intros v H. destruct (promise s) as [|o] eqn:E.
    + assert (F : fulfilled s' = false)
        by (apply deliver_fulfilled; [reflexivity | unfold fulfilled; now rewrite E]).
      unfold fulfilled in F. rewrite H in F. discriminate.
    + unfold s' in H. rewrite (deliver_settled L (Close None) s o E) in H.
      exact H.
  - intros Hc. apply (deliver_close_null L s Hc).
  - intros Hp.
    destruct (pending_buffers apiKey env L prompt model effort evs Hp) as [_ He].
    pose proof (after_Phase apiKey env L prompt model effort evs) as P.
    destruct (Phase_pending _ P Hp) as [_ Es].
    assert (Hc : child_listeners s = true) by (unfold s; rewrite Es; reflexivity).
    destruct (deliver_close_null L s Hc) as [_ B].
    unfold s'. rewrite (B Hp). unfold s. rewrite He. reflexivity.
  - intros err. split.
    + exists "Codex exited with code ", (":" ++ newline ++ err). reflexivity.
    + exists ("Codex exited with code null:" ++ newline), "".
      rewrite text_append_empty_r. reflexivity.
Qed.

Lemma null_exit_code_is_failure_witness :
  fulfilled
    (run healthy [StdoutData "late"; Elapse 2000; Fire 1%nat]
       (deliver healthy (Close None)
          (after "key" [] healthy "review this" "gpt-5-codex" "high"
             [StderrData "killed"; Elapse 300000; Fire 0%nat])))
  = false
  /\ promise
       (deliver healthy (Close None)
          (after "key" [] healthy "review this" "gpt-5-codex" "high"
             [StderrData "killed"]))
     = Settled (Rejected ("Codex exited with code null:" ++ newline ++ "killed")).
Proof.
  split.
  - destruct (null_exit_code_is_failure "key" [] healthy "review this"
                "gpt-5-codex" "high"
                [StderrData "killed"; Elapse 300000; Fire 0%nat])
      as (A & _).
    apply A. reflexivity.
  - destruct (null_exit_code_is_failure "key" [] healthy "review this"
                "gpt-5-codex" "high" [StderrData "killed"])
      as (_ & _ & _ & _ & A & _).
    exact (A eq_refl).
Defined.

(** * Further properties of callCodex *)

(** ** After the child is gone *)

(** With no timer pending, no event sends a signal or schedules a
    timer. *)
Lemma no_timer_deliver L ev s :
  timers s = [] ->
  timers (deliver L ev s) = [] /\ signals (deliver L ev s) = signals s.
Proof.
  destruct s; simpl; intros ->.
  destruct ev; unfold deliver; repeat (step; try break_match); step;
    split; reflexivity.
Qed.

Lemma no_timer_run L evs s :
  timers s = [] ->
  timers (run L evs s) = [] /\ signals (run L evs s) = signals s.
Proof.
  revert s. induction evs as [|ev evs IH]; intros s H; simpl; [now split|].
  destruct (no_timer_deliver L ev s H) as [A B].
  destruct (IH (deliver L ev s) A) as [A' B'].
  split; [assumption | congruence].
Qed.

(** A close or error event of the child leaves no timer and sends no
    signal. *)
Lemma child_end_clears L ev s :
  Phase s -> ends_child ev = true ->
  timers (deliver L ev s) = [] /\ signals (deliver L ev s) = signals s.
Proof.
  intros P He. destruct ev; try discriminate;
    destruct P; unfold deliver; crush; split; reflexivity.
Qed.

(** X1: once the child has closed or has reported an error, the
    invocation holds no timer and never signals the child again,
    whatever else is delivered; in particular a child that dies within
    the grace period after SIGTERM is never sent SIGKILL. *)
Theorem no_signal_after_child_end
    apiKey env L prompt model effort (evs evs' : list Event) (ev : Event) :
  ends_child ev = true ->
  timers (after apiKey env L prompt model effort (evs ++ ev :: evs')) = []
  /\ signals (after apiKey env L prompt model effort (evs ++ ev :: evs'))
     = signals (after apiKey env L prompt model effort evs).
Proof.
  intros He. unfold after. rewrite run_app.
  change (run L (ev :: evs') ?s) with (run L evs' (deliver L ev s)).
  pose proof (run_Phase L evs _ (callCodex_Phase apiKey env L prompt model effort)) as P.
  destruct (child_end_clears L ev _ P He) as [A B].
  destruct (no_timer_run L evs' _ A) as [A' B'].
  split; [exact A' | congruence].
Qed.

Lemma no_signal_after_child_end_witness :
  signals
    (after "key" [] healthy "review this" "gpt-5-codex" "high"
       ([Elapse 300000; Fire 0%nat; Elapse 500]
          ++ Close None :: [Elapse 5000; Fire 1%nat]))
  = [(300000, SIGTERM)].
Proof.
  rewrite (proj2 (no_signal_after_child_end "key" [] healthy "review this"
                    "gpt-5-codex" "high" [Elapse 300000; Fire 0%nat; Elapse 500]
                    [Elapse 5000; Fire 1%nat] (Close None) eq_refl)).
  reflexivity.
Defined.

(** ** The child's error event *)

(** X2: when the child reports an error (it could not be spawned, say)
    while the invocation is unresolved, the promise is rejected with
    [Failed to spawn codex: <message>], no timer is left, the child has
    not been and will not be sent a signal, and the result stays whatever
    follows, a close event included. *)
Theorem spawn_error_rejects
    apiKey env L prompt model effort (evs evs' : list Event) (m : string) :
  promise (after apiKey env L prompt model effort evs) = Pending ->
  promise (after apiKey env L prompt model effort (evs ++ ProcError m :: evs'))
    = Settled (Rejected ("Failed to spawn codex: " ++ m))
  /\ timers (after apiKey env L prompt model effort (evs ++ ProcError m :: evs')) = []
  /\ signals (after apiKey env L prompt model effort (evs ++ ProcError m :: evs')) = []
  /\ uncaught (after apiKey env L prompt model effort (evs ++ [ProcError m]))
     = uncaught (after apiKey env L prompt model effort evs).
Proof.
  intros Hp.
  pose proof (after_Phase apiKey env L prompt model effort evs) as P.
  destruct (Phase_pending _ P Hp) as [_ Es].
  assert (Ec : child_listeners (after apiKey env L prompt model effort evs) = true)
    by (rewrite Es; reflexivity).
  assert (Eg : signals (after apiKey env L prompt model effort evs) = [])
    by (rewrite Es; reflexivity).
  unfold after in *. rewrite !run_app.
  change (run L (ProcError m :: evs') ?s) with (run L evs' (deliver L (ProcError m) s)).
  change (run L [ProcError m] ?s) with (deliver L (ProcError m) s).
  destruct (child_end_clears L (ProcError m) _ P eq_refl) as [A B].
  destruct (no_timer_run L evs' _ A) as [A' B'].
  repeat split.
  - apply run_settled. rewrite Es. unfold deliver. step. reflexivity.
  - exact A'.
  - congruence.
  - rewrite deliver_uncaught, Ec. reflexivity.
Qed.

Lemma spawn_error_rejects_witness :
  promise
    (after "key" [] healthy "review this" "gpt-5-codex" "high"
       ([Elapse 1] ++ ProcError "spawn codex ENOENT" :: [Close (Some (-2))]))
  = Settled (Rejected "Failed to spawn codex: spawn codex ENOENT").
Proof.
  exact (proj1 (spawn_error_rejects "key" [] healthy "review this" "gpt-5-codex"
                  "high" [Elapse 1] [Close (Some (-2))] "spawn codex ENOENT"
                  eq_refl)).
Defined.

Lemma callCodex_child_listeners apiKey env L prompt model effort :
  child_listeners (callCodex apiKey env L prompt model effort) =
    has_stdin L && launch_writes L.
Proof.
  unfold callCodex, new_promise, executor, launch_writes.
  destruct L as [[|] [w|] [e|]]; step; reflexivity.
Qed.

Lemma after_listeners apiKey env L prompt model effort evs :
  child_listeners (after apiKey env L prompt model effort evs)
    = has_stdin L && launch_writes L
  /\ stdin_listener (after apiKey env L prompt model effort evs) = has_stdin L.
Proof.
  unfold after.
  destruct (run_frame L evs (callCodex apiKey env L prompt model effort))
    as (_ & _ & _ & _ & A & B).
  rewrite A, B, callCodex_child_listeners.
  split; [reflexivity | apply callCodex_listeners].
Qed.

(** X3: when the launch gets as far as registering the listeners (the
    input stream is there and neither [write] nor [end] throws), every
    "error" event of the child and of its input stream is caught, but
    the output and error streams are given "data" listeners only: the
    uncaught exceptions of the host are exactly the "error" events of
    these two streams, in order of arrival, and such an event is not
    turned into a result of the invocation, which stays as it was. *)
Theorem only_output_stream_errors_escape
    apiKey env L prompt model effort (evs : list Event) (m : string) :
  has_stdin L = true -> launch_writes L = true ->
  uncaught (after apiKey env L prompt model effort evs) = stream_errors evs
  /\ promise (after apiKey env L prompt model effort (evs ++ [StdoutError m]))
     = promise (after apiKey env L prompt model effort evs)
  /\ promise (after apiKey env L prompt model effort (evs ++ [StderrError m]))
     = promise (after apiKey env L prompt model effort evs).
Proof.
  intros H1 H2. split.
  - induction evs as [|ev evs IH] using rev_ind.
    + apply callCodex_listeners.
    + destruct (after_listeners apiKey env L prompt model effort evs) as [A B].
      unfold after, stream_errors in *. rewrite run_app, flat_map_app.
      change (run L [ev] ?s) with (deliver L ev s).
      rewrite deliver_uncaught, A, B, H1, H2, IH.
      destruct ev; cbn [flat_map andb negb app]; rewrite ?app_nil_r; reflexivity.
  - unfold after. rewrite !run_app.
    change (run L [?e] ?s) with (deliver L e s).
    destruct (run L evs (callCodex apiKey env L prompt model effort)).
    split; reflexivity.
Qed.

Lemma only_output_stream_errors_escape_witness :
  uncaught
    (after "key" [] healthy "review this" "gpt-5-codex" "high"
       [StdinError "write EPIPE"; StdoutError "read EIO"; ProcError "kill EPERM";
        Close None; StderrError "read ECONNRESET"; StdinError "again"])
  = ["read EIO"; "read ECONNRESET"].
Proof.
  exact (proj1 (only_output_stream_errors_escape "key" [] healthy "review this"
                  "gpt-5-codex" "high"
                  [StdinError "write EPIPE"; StdoutError "read EIO";
                   ProcError "kill EPERM"; Close None;
                   StderrError "read ECONNRESET"; StdinError "again"]
                  "" eq_refl eq_refl)).
Defined.

(** X4: when the executor returns early (no input stream, or [write] or
    [end] throws) the listeners of the child are never registered: an
    "error" event of the child then finds no listener and becomes an
    uncaught exception of the host, and it leaves the result as it
    was. *)
Theorem early_return_leaves_child_error_unhandled
    apiKey env L prompt model effort (evs : list Event) (m : string) :
  has_stdin L && launch_writes L = false ->
  uncaught (after apiKey env L prompt model effort (evs ++ [ProcError m]))
    = (uncaught (after apiKey env L prompt model effort evs) ++ [m])%list
  /\ promise (after apiKey env L prompt model effort (evs ++ [ProcError m]))
     = promise (callCodex apiKey env L prompt model effort)
  /\ promise (callCodex apiKey env L prompt model effort) <> Pending.
Proof.
  intros H.
  destruct (after_listeners apiKey env L prompt model effort evs) as [A _].
  rewrite H in A.
  assert (N : promise (callCodex apiKey env L prompt model effort) <> Pending).
  { pose proof (callCodex_child_listeners apiKey env L prompt model effort) as C.
    rewrite H in C. intros E.
    destruct (Phase_pending _ (callCodex_Phase apiKey env L prompt model effort) E)
      as [_ Es].
    rewrite Es in C. discriminate C. }
  split; [|split; [|exact N]].
  - unfold after in *. rewrite run_app.
    change (run L [ProcError m] ?s) with (deliver L (ProcError m) s).
    rewrite deliver_uncaught, A. reflexivity.
  - destruct (promise (callCodex apiKey env L prompt model effort)) as [|o] eqn:E;
      [now elim N|].
    unfold after. apply run_settled, E.
Qed.

Lemma early_return_leaves_child_error_unhandled_witness :
  uncaught
    (after "key" [] (mkLaunch false None None) "review this" "gpt-5-codex" "high"
       ([] ++ [ProcError "spawn EMFILE"]))
  = ["spawn EMFILE"].
Proof.
  exact (proj1 (early_return_leaves_child_error_unhandled "key" []
                  (mkLaunch false None None) "review this" "gpt-5-codex" "high"
                  [] "spawn EMFILE" eq_refl)).
Defined.

(** ** The child's environment *)

Lemma env_get_cons k k' v (e : Env) :
  env_get k ((k', v) :: e) = if String.eqb k k' then Some v else env_get k e.
Proof. reflexivity. Qed.

Lemma env_get_app k (a b : Env) :
  env_get k (a ++ b)%list =
    match env_get k a with
    | Some v => Some v
    | None => env_get k b
    end.
Proof.
  induction a as [|[k' v'] a IH]; [reflexivity|].
  cbn [app]. rewrite !env_get_cons.
  destruct (String.eqb k k'); [reflexivity | exact IH].
Qed.

Lemma env_get_without k k' (e : Env) :
  env_get k (filter (fun kv => negb (String.eqb k' (fst kv))) e) =
    if String.eqb k' k then None else env_get k e.
Proof.
  induction e as [|[k0 v0] e IH]; [now destruct (String.eqb k' k)|].
  cbn [filter fst]. rewrite env_get_cons.
  destruct (String.eqb k' k0) eqn:E0; cbn [negb].
  - apply String.eqb_eq in E0. subst k0. rewrite IH.
    rewrite (String.eqb_sym k k'). now destruct (String.eqb k' k).
  - rewrite !env_get_cons, IH.
    destruct (String.eqb k' k) eqn:E; [|reflexivity].
    apply String.eqb_eq in E. subst k'.
    now rewrite E0.
Qed.

(** X5: the child is spawned with the host's environment in which
    [OPENAI_API_KEY] is the key the server holds: looking that variable
    up in the child's environment gives the server's key, whatever the
    host's environment says, and every other variable reads as in the
    host. *)
Theorem child_env_is_host_env_with_key
    apiKey env L prompt model effort (evs : list Event) :
  exists sp,
    spawned (after apiKey env L prompt model effort evs) = Some sp
    /\ env_get "OPENAI_API_KEY" (child_env sp) = Some apiKey
    /\ forall k, k <> "OPENAI_API_KEY" -> env_get k (child_env sp) = env_get k env.
Proof.
  unfold after.
  destruct (run_frame L evs (callCodex apiKey env L prompt model effort)) as (S1 & _).
  rewrite S1, callCodex_spawned. eexists. split; [reflexivity|].
  cbn [child_env]. unfold env_with. split.
  - rewrite env_get_app, env_get_without, String.eqb_refl.
    rewrite env_get_cons. now rewrite String.eqb_refl.
  - intros k Hk. rewrite env_get_app, env_get_without.
    destruct (String.eqb "OPENAI_API_KEY" k) eqn:E.
    + apply String.eqb_eq in E. now elim Hk.
    + destruct (env_get k env); [reflexivity|].
      rewrite env_get_cons, String.eqb_sym, E. reflexivity.
Qed.

(** ** The two buffers over the whole life of the child *)

(** X6: once the listeners are registered they stay: whatever has
    happened to the promise, [stdout] holds all chunks of the child's
    output stream and [stderr] all chunks of its error stream, each in
    order of arrival and never mixed; and a chunk never settles or
    changes the result. *)
Theorem buffers_accumulate_for_life
    apiKey env L prompt model effort (evs : list Event) (d : string) :
  has_stdin L = true -> launch_writes L = true ->
  stdout (after apiKey env L prompt model effort evs) = Text.join (stdout_chunks evs)
  /\ stderr (after apiKey env L prompt model effort evs) = Text.join (stderr_chunks evs)
  /\ promise (after apiKey env L prompt model effort (evs ++ [StdoutData d]))
     = promise (after apiKey env L prompt model effort evs)
  /\ promise (after apiKey env L prompt model effort (evs ++ [StderrData d]))
     = promise (after apiKey env L prompt model effort evs).
Proof.
  intros H1 H2.
  pose proof (callCodex_child_listeners apiKey env L prompt model effort) as C.
  rewrite H1, H2 in C.
  destruct (run_buffers L evs _ C) as [A B].
  destruct (callCodex_buffers apiKey env L prompt model effort) as [A0 B0].
  unfold after. rewrite A, B, A0, B0, !run_app.
  repeat split;
    change (run L [?e] ?s) with (deliver L e s);
    destruct (run L evs (callCodex apiKey env L prompt model effort));
    unfold deliver; crush; reflexivity.
Qed.

Lemma buffers_accumulate_for_life_witness :
  stdout
    (after "key" [] healthy "review this" "gpt-5-codex" "high"
       [StdoutData "a"; StderrData "x"; Close (Some 0); StdoutData "b"])
  = "ab".
Proof.
  exact (proj1 (buffers_accumulate_for_life "key" [] healthy "review this"
                  "gpt-5-codex" "high"
                  [StdoutData "a"; StderrData "x"; Close (Some 0); StdoutData "b"]
                  "" eq_refl eq_refl)).
Defined.

(** ** The error log *)

Lemma deliver_console_kept L ev s :
  zero_close ev = false -> console (deliver L ev s) = console s.
Proof.
  destruct s, ev; unfold deliver, zero_close; intros Hz;
    try rewrite Hz; crush; try discriminate; reflexivity.
Qed.

Lemma deliver_console_lines L ev s :
  Forall logged_stderr (console s) ->
  Forall logged_stderr (console (deliver L ev s)).
Proof.
  destruct s, ev; unfold deliver; cbn [console]; intros H; crush;
    try assumption.
  all: apply Forall_app; split; [assumption|]; constructor; [|constructor].
  all: match goal with
       | E : JS.truthy ?x = true |- _ =>
           exists x; split; [|reflexivity];
           intros N; rewrite N in E; discriminate E
       end.
Qed.

(** X7: the stderr text is written to the error log by the success
    branch alone: an invocation none of whose close events reports code 0
    logs nothing at all, whatever the child writes to stderr and however
    it fails, and every line ever logged is [Codex stderr: ] followed by
    a non-empty text. *)
Theorem stderr_logged_only_on_success
    apiKey env L prompt model effort (evs : list Event) :
  (existsb zero_close evs = false ->
   console (after apiKey env L prompt model effort evs) = [])
  /\ Forall logged_stderr (console (after apiKey env L prompt model effort evs)).
Proof.
  assert (C0 : console (callCodex apiKey env L prompt model effort) = []).
  { unfold callCodex, new_promise, executor.
    destruct L as [[|] [w|] [e|]]; step; reflexivity. }
  unfold after. split.
  - revert C0. generalize (callCodex apiKey env L prompt model effort).
    induction evs as [|ev evs IH]; intros s C0 Hz; [exact C0|].
    cbn [existsb] in Hz. apply orb_false_iff in Hz as [H1 H2].
    change (run L (ev :: evs) s) with (run L evs (deliver L ev s)).
    apply IH; [|assumption]. now rewrite deliver_console_kept.
  - assert (F0 : Forall logged_stderr (console (callCodex apiKey env L prompt model effort)))
      by (rewrite C0; constructor).
    revert F0. generalize (callCodex apiKey env L prompt model effort).
    induction evs as [|ev evs IH]; intros s F0; [exact F0|].
    change (run L (ev :: evs) s) with (run L evs (deliver L ev s)).
    apply IH, deliver_console_lines, F0.
Qed.

Lemma stderr_logged_only_on_success_witness :
  console
    (after "key" [] healthy "review this" "gpt-5-codex" "high"
       [StderrData "bad input"; Close (Some 2); StderrData "more"; Close None])
  = [].
Proof.
  exact (proj1 (stderr_logged_only_on_success "key" [] healthy "review this"
                  "gpt-5-codex" "high"
                  [StderrData "bad input"; Close (Some 2); StderrData "more";
                   Close None]) eq_refl).
Defined.

(** ** Signals *)

Lemma deliver_signals_kept L ev s :
  is_fire ev = false -> signals (deliver L ev s) = signals s.
Proof.
  destruct s, ev; unfold deliver; intros Hf; try discriminate;
    crush; reflexivity.
Qed.

(** X8: a child is signalled by the two timers and by nothing else.
    Without a timer having run no signal has been sent; and at any
    moment the signals sent are none, or SIGTERM alone, sent when the
    termination timer was due or later, or that SIGTERM followed by one
    SIGKILL at least 2000 ms after it: never a second SIGTERM, never a
    SIGKILL first. *)
Theorem signal_discipline
    apiKey env L prompt model effort (evs : list Event) :
  let s := after apiKey env L prompt model effort evs in
  (existsb is_fire evs = false -> signals s = [])
  /\ (signals s = []
      \/ exists fired,
           node_delay (TIMEOUT_MS s) <= fired
           /\ (signals s = [(fired, SIGTERM)]
               \/ exists killed,
                    fired + 2000 <= killed
                    /\ signals s = [(fired, SIGTERM); (killed, SIGKILL)])).
Proof.
  intros s. split.
  - assert (C0 : signals (callCodex apiKey env L prompt model effort) = []).
    { unfold callCodex, new_promise, executor.
      destruct L as [[|] [w|] [e|]]; step; reflexivity. }
    unfold s, after. revert C0. generalize (callCodex apiKey env L prompt model effort).
    induction evs as [|ev evs IH]; intros s0 C0 Hf; [exact C0|].
    cbn [existsb] in Hf. apply orb_false_iff in Hf as [H1 H2].
    change (run L (ev :: evs) s0) with (run L evs (deliver L ev s0)).
    apply IH; [|assumption]. now rewrite deliver_signals_kept.
  - pose proof (Phase_signals s (after_Phase apiKey env L prompt model effort evs)) as H.
    inversion H as [E | fired Hf E | fired killed Hf Hk E].
    + left. reflexivity.
    + right. exists fired. split; [assumption|]. left. reflexivity.
    + right. exists fired. split; [assumption|]. right.
      exists killed. split; [exact Hk | reflexivity].
Qed.

Lemma signal_discipline_witness :
  signals
    (after "key" [] healthy "review this" "gpt-5-codex" "high"
       [Elapse 400000; StdoutData "still here"; StdinError "write EPIPE";
        Close (Some 1)])
  = [].
Proof.
  exact (proj1 (signal_discipline "key" [] healthy "review this" "gpt-5-codex"
                  "high"
                  [Elapse 400000; StdoutData "still here";
                   StdinError "write EPIPE"; Close (Some 1)]) eq_refl).
Defined.

(** * Properties of the server *)

(** ** The handler and the invocation *)

Lemma close_zero_fulfils apiKey env L prompt model effort evs evs' :
  promise (after apiKey env L prompt model effort evs) = Pending ->
  promise (after apiKey env L prompt model effort (evs ++ Close (Some 0) :: evs'))
    = Settled (Fulfilled (Text.join (stdout_chunks evs))).
Proof.
  intros Hp.
  destruct (pending_buffers apiKey env L prompt model effort evs Hp) as [Ho _].
  pose proof (after_Phase apiKey env L prompt model effort evs) as P.
  destruct (Phase_pending _ P Hp) as [_ Es].
  unfold after in *. rewrite run_app.
  change (run L (Close (Some 0) :: evs') ?s) with (run L evs' (deliver L (Close (Some 0)) s)).
  apply run_settled.
  set (s := run L evs (callCodex apiKey env L prompt model effort)) in *.
  clearbody s. rewrite Es. unfold deliver, on_close.
  change (JS.is_zero_code (Some 0)) with true.
  crush; now rewrite Ho.
Qed.

(** The handler's view of the invocation it started. *)
Lemma handle_with_key dirname server env L disk args evs :
  JS.truthy (Server.apiKey server) = true ->
  Server.handleCodexReview dirname server env L disk args evs =
    let s := after (Server.apiKey server) env L (Server.prompt args)
               (Server.or_undefined (Server.model args) "gpt-5-codex")
               (Server.or_undefined (Server.reasoning_effort args) "high") evs in
    match promise s with
    | Pending => Server.mkHandled None [] (Some s)
    | Settled o =>
        Server.mkHandled (Some (snd (Server.answer dirname disk args o)))
          (fst (Server.answer dirname disk args o)) (Some s)
    end.
Proof.
  intros H. unfold Server.handleCodexReview, after. rewrite H. cbn [negb].
  cbv zeta. destruct (promise _); [reflexivity|].
  destruct (Server.answer dirname disk args o). reflexivity.
Qed.

(** X9: a server constructed without [OPENAI_API_KEY] in the
    environment, or with an empty one, warns once on the error log and
    answers every [codex_review] call with the fixed text about the
    missing key, without the [isError] mark, without starting a child
    and without touching the file system; with a non-empty key every
    call starts a child. *)
Theorem missing_key_never_spawns
    dirname env L disk args (evs : list Event) :
  let server := fst (Server.create env) in
  let h := Server.handleCodexReview dirname server env L disk args evs in
  ((env_get "OPENAI_API_KEY" env = None \/ env_get "OPENAI_API_KEY" env = Some "") ->
   snd (Server.create env) = ["Warning: OPENAI_API_KEY not set in environment"]
   /\ Server.callTool dirname server env L disk "codex_review" args evs =
        inr (Server.mkHandled
               (Some (Server.mkResult
                        [Server.mkContent "text"
                           "Error: OPENAI_API_KEY not set. Please configure the API key in your MCP server settings."]
                        None))
               [] None))
  /\ (Server.child h = None <->
      env_get "OPENAI_API_KEY" env = None \/ env_get "OPENAI_API_KEY" env = Some "").
Proof.
  intros server h. unfold h, server, Server.callTool, Server.handleCodexReview, Server.create.
  cbn [fst snd Server.apiKey String.eqb Ascii.eqb Bool.eqb].
  destruct (env_get "OPENAI_API_KEY" env) as [[|c k]|] eqn:E; cbn [JS.or_default JS.truthy negb].
  - split; [intros _; split; reflexivity|]. split; [intros _; now right | reflexivity].
  - split; [intros [H|H]; discriminate H|].
    cbv zeta. split.
    + destruct (promise _); [|destruct (Server.answer _ _ _ _)]; discriminate.
    + intros [H|H]; discriminate H.
  - split; [intros _; split; reflexivity|]. split; [intros _; now left | reflexivity].
Qed.

Lemma missing_key_never_spawns_witness :
  Server.callTool (fun _ => ".") (fst (Server.create [("HOME", "/root")]))
    [("HOME", "/root")] healthy Server.sound_disk "codex_review"
    (Server.mkArgs "review this" None (Some "out.md") None) [Close (Some 0)]
  = inr (Server.mkHandled
           (Some (Server.mkResult
                    [Server.mkContent "text"
                       "Error: OPENAI_API_KEY not set. Please configure the API key in your MCP server settings."]
                    None))
           [] None).
Proof.
  refine (proj2 (proj1 (missing_key_never_spawns (fun _ => ".") [("HOME", "/root")]
                          healthy Server.sound_disk
                          (Server.mkArgs "review this" None (Some "out.md") None)
                          [Close (Some 0)]) _)).
  left. reflexivity.
Defined.

(** X10: the defaults the tool advertises in its input schema are the
    ones the handler applies: a call that omits [reasoning_effort] or
    [model] behaves in every respect like the call that passes the
    advertised default; only an omitted field is replaced, so that the
    child's argument vector carries the model and the effort exactly as
    given whenever they are given, the empty string included; [prompt]
    is the one required property and has no default. *)
Theorem advertised_defaults_are_applied
    dirname server env L disk args (evs : list Event) :
  exists effort model_name,
    Server.advertised_default "codex_review" "reasoning_effort" = Some effort
    /\ Server.advertised_default "codex_review" "model" = Some model_name
    /\ Server.advertised_default "codex_review" "prompt" = None
    /\ map Server.required Server.tools = [["prompt"]]
    /\ Server.handleCodexReview dirname server env L disk args evs =
       Server.handleCodexReview dirname server env L disk
         (Server.mkArgs (Server.prompt args)
            (Some (Server.or_undefined (Server.reasoning_effort args) effort))
            (Server.output_file args)
            (Some (Server.or_undefined (Server.model args) model_name)))
         evs
    /\ forall s, Server.child (Server.handleCodexReview dirname server env L disk args evs)
                   = Some s ->
                 option_map argv (spawned s) =
                   Some [ "exec"; "--full-auto"; "-m";
                          Server.or_undefined (Server.model args) model_name; "-c";
                          "model_reasoning_effort="
                            ++ Server.or_undefined (Server.reasoning_effort args) effort ].
Proof.
  exists "high", "gpt-5-codex".
  split; [reflexivity|]. split; [reflexivity|]. split; [reflexivity|].
  split; [reflexivity|]. split.
  - destruct args as [p [e|] f [m|]]; reflexivity.
  - intros s. unfold Server.handleCodexReview.
    destruct (negb (JS.truthy (Server.apiKey server))); cbn [Server.child];
      [discriminate|].
    cbv zeta.
    assert (E : option_map argv
                  (spawned (run L evs
                     (callCodex (Server.apiKey server) env L (Server.prompt args)
                        (Server.or_undefined (Server.model args) "gpt-5-codex")
                        (Server.or_undefined (Server.reasoning_effort args) "high"))))
                = Some (codex_args
                          (Server.or_undefined (Server.model args) "gpt-5-codex")
                          (Server.or_undefined (Server.reasoning_effort args) "high"))).
    { destruct (run_frame L evs
                  (callCodex (Server.apiKey server) env L (Server.prompt args)
                     (Server.or_undefined (Server.model args) "gpt-5-codex")
                     (Server.or_undefined (Server.reasoning_effort args) "high")))
        as (S1 & _).
      rewrite S1, callCodex_spawned. reflexivity. }
    destruct (promise _); [|destruct (Server.answer _ _ _ _)];
      cbn [Server.child]; intros H; injection H as <-; exact E.
Qed.

(** X11: where nothing fails on the file system, a child that closes
    with code 0 while the invocation is unresolved gives a reply whose
    one text entry is the stdout captured up to that close, without
    [isError]; with a non-empty [output_file] the handler first creates
    the directory of that path, then writes the file, and what it writes
    is exactly the text it replies; without [output_file], or with an
    empty one, it touches no file.  What the child writes after the close
    is neither replied nor saved. *)
Theorem saved_file_is_the_reply
    dirname server env L args (evs evs' : list Event) :
  let invocation :=
    after (Server.apiKey server) env L (Server.prompt args)
      (Server.or_undefined (Server.model args) "gpt-5-codex")
      (Server.or_undefined (Server.reasoning_effort args) "high") in
  let h := Server.handleCodexReview dirname server env L Server.sound_disk args
             (evs ++ Close (Some 0) :: evs') in
  let response := Text.join (stdout_chunks evs) in
  JS.truthy (Server.apiKey server) = true ->
  promise (invocation evs) = Pending ->
  Server.reply h = Some (Server.mkResult [Server.mkContent "text" response] None)
  /\ Server.files h =
       match Server.output_file args with
       | Some (String c f) =>
           [ Server.Mkdir (dirname (String c f));
             Server.WriteFile (String c f) response "utf-8" ]
       | _ => []
       end.
Proof.
  intros invocation h response Hk Hp. unfold h.
  rewrite (handle_with_key dirname server env L Server.sound_disk args _ Hk).
  cbv zeta. fold invocation.
  unfold invocation. rewrite (close_zero_fulfils _ _ _ _ _ _ evs evs' Hp).
  fold response. cbn [Server.reply Server.files].
  unfold Server.answer, Server.persist.
  destruct (Server.output_file args) as [[|c f]|]; split; reflexivity.
Qed.

Lemma saved_file_is_the_reply_witness :
  Server.files
    (Server.handleCodexReview (fun _ => "reviews") (Server.mk "key") [] healthy
       Server.sound_disk
       (Server.mkArgs "review this" None (Some "reviews/one.md") None)
       ([StdoutData "looks "; StdoutData "fine"]
          ++ Close (Some 0) :: [StdoutData "late"]))
  = [ Server.Mkdir "reviews";
      Server.WriteFile "reviews/one.md" "looks fine" "utf-8" ].
Proof.
  exact (proj2 (saved_file_is_the_reply (fun _ => "reviews") (Server.mk "key") []
                  healthy
                  (Server.mkArgs "review this" None (Some "reviews/one.md") None)
                  [StdoutData "looks "; StdoutData "fine"] [StdoutData "late"]
                  eq_refl eq_refl)).
Defined.

(** X12: a failure while saving takes the place of the review.  When
    the child has closed with code 0 but [mkdirSync] or [writeFileSync]
    throws, the reply is marked [isError] and its text is
    [Error calling Codex: ] followed by the message of the file-system
    error; the text of the review is not handed back; and when creating
    the directory fails the file is not written at all. *)
Theorem save_failure_hides_review
    dirname server env L disk args (evs evs' : list Event) (f : string)
    (e : JS.Thrown) :
  let invocation :=
    after (Server.apiKey server) env L (Server.prompt args)
      (Server.or_undefined (Server.model args) "gpt-5-codex")
      (Server.or_undefined (Server.reasoning_effort args) "high") in
  let h := Server.handleCodexReview dirname server env L disk args
             (evs ++ Close (Some 0) :: evs') in
  let response := Text.join (stdout_chunks evs) in
  JS.truthy (Server.apiKey server) = true ->
  promise (invocation evs) = Pending ->
  Server.output_file args = Some f -> f <> "" ->
  Server.mkdir_throws disk (dirname f) = Some e
  \/ (Server.mkdir_throws disk (dirname f) = None
      /\ Server.writeFile_throws disk f response = Some e) ->
  Server.reply h =
    Some (Server.mkResult
            [Server.mkContent "text" ("Error calling Codex: " ++ JS.thrown_text e)]
            (Some true))
  /\ (forall path data encoding,
        ~ In (Server.WriteFile path data encoding) (Server.files h))
  /\ (Server.mkdir_throws disk (dirname f) = Some e -> Server.files h = []).
Proof.
  intros invocation h response Hk Hp Hf Hne Hd. unfold h.
  rewrite (handle_with_key dirname server env L disk args _ Hk).
  cbv zeta. fold invocation.
  unfold invocation. rewrite (close_zero_fulfils _ _ _ _ _ _ evs evs' Hp).
  fold response. cbn [Server.reply Server.files].
  unfold Server.answer, Server.persist. rewrite Hf.
  destruct f as [|c f]; [now elim Hne|]. cbn [JS.truthy].
  destruct Hd as [Hm | [Hm Hw]]; rewrite Hm; [|rewrite Hw];
    cbn [fst snd]; repeat split; try reflexivity.
  - intros path data encoding [].
  - intros path data encoding [H|[]]. discriminate H.
  - intros H. discriminate H.
Qed.

Lemma save_failure_hides_review_witness :
  Server.reply
    (Server.handleCodexReview (fun _ => "/") (Server.mk "key") [] healthy
       (Server.mkDisk (fun _ => None)
          (fun _ _ => Some (JS.ErrorObject "EACCES: permission denied")))
       (Server.mkArgs "review this" None (Some "/one.md") None)
       ([StdoutData "looks fine"] ++ Close (Some 0) :: []))
  = Some (Server.mkResult
            [Server.mkContent "text"
               "Error calling Codex: EACCES: permission denied"]
            (Some true)).
Proof.
  refine (proj1 (save_failure_hides_review (fun _ => "/") (Server.mk "key") []
                   healthy
                   (Server.mkDisk (fun _ => None)
                      (fun _ _ => Some (JS.ErrorObject "EACCES: permission denied")))
                   (Server.mkArgs "review this" None (Some "/one.md") None)
                   [StdoutData "looks fine"] [] "/one.md"
                   (JS.ErrorObject "EACCES: permission denied")
                   eq_refl eq_refl eq_refl _ _)).
  - discriminate.
  - right. split; reflexivity.
Defined.

(** X13: the handler replies exactly when the promise of [callCodex]
    has settled, and a reply once given is final: events that arrive
    later change neither the reply nor what was written.  Every
    rejection, whatever its cause, comes back as a reply marked
    [isError] whose text is [Error calling Codex: ] followed by the
    message of the rejection, and then no file is created or written,
    even when [output_file] is given. *)
Theorem rejection_becomes_error_reply
    dirname server env L disk args (evs evs' : list Event) :
  let invocation :=
    after (Server.apiKey server) env L (Server.prompt args)
      (Server.or_undefined (Server.model args) "gpt-5-codex")
      (Server.or_undefined (Server.reasoning_effort args) "high") in
  let h := Server.handleCodexReview dirname server env L disk args in
  JS.truthy (Server.apiKey server) = true ->
  (Server.reply (h evs) = None <-> promise (invocation evs) = Pending)
  /\ (forall r, Server.reply (h evs) = Some r ->
        Server.reply (h (evs ++ evs')%list) = Some r
        /\ Server.files (h (evs ++ evs')%list) = Server.files (h evs))
  /\ (forall message,
        promise (invocation evs) = Settled (Rejected message) ->
        Server.reply (h evs) =
          Some (Server.mkResult
                  [Server.mkContent "text" ("Error calling Codex: " ++ message)]
                  (Some true))
        /\ Server.files (h evs) = []).
Proof.
  intros invocation h Hk. unfold h.
  rewrite !(handle_with_key dirname server env L disk args _ Hk).
  cbv zeta. fold invocation.
  split; [|split].
  - destruct (promise (invocation evs)); cbn [Server.reply]; split; intros H;
      try reflexivity; discriminate H.
  - intros r. destruct (promise (invocation evs)) as [|o] eqn:E;
      cbn [Server.reply]; [discriminate|].
    intros H.
    assert (E' : promise (invocation (evs ++ evs')%list) = Settled o).
    { unfold invocation, after in *. rewrite run_app. apply run_settled, E. }
    rewrite E'. cbn [Server.reply Server.files]. split; [exact H | reflexivity].
  - intros message E. rewrite E. cbn [Server.reply Server.files Server.answer fst snd].
    split; reflexivity.
Qed.

Lemma rejection_becomes_error_reply_witness :
  Server.reply
    (Server.handleCodexReview (fun _ => ".") (Server.mk "key") [] healthy
       Server.sound_disk
       (Server.mkArgs "review this" None (Some "one.md") None)
       [Elapse 300000; Fire 0%nat])
  = Some (Server.mkResult
            [Server.mkContent "text"
               "Error calling Codex: Codex process timed out after 300000ms"]
            (Some true)).
Proof.
  refine (proj1 (proj2 (proj2 (rejection_becomes_error_reply (fun _ => ".")
            (Server.mk "key") [] healthy Server.sound_disk
            (Server.mkArgs "review this" None (Some "one.md") None)
            [Elapse 300000; Fire 0%nat] [] eq_refl))
            "Codex process timed out after 300000ms" _)).
  reflexivity.
Defined.

(** ** Dispatch *)

(** X14: the call handler serves exactly the tools the list handler
    advertises: a call under an advertised name goes to
    [handleCodexReview], and under any other name, names that differ in
    case included, it throws [Unknown tool: <name>] and starts
    nothing. *)
Theorem dispatch_matches_listing
    dirname server env L disk (name : string) args (evs : list Event) :
  (In name (map Server.tool_name Server.tools) ->
   Server.callTool dirname server env L disk name args evs =
     inr (Server.handleCodexReview dirname server env L disk args evs))
  /\ (~ In name (map Server.tool_name Server.tools) ->
      Server.callTool dirname server env L disk name args evs =
        inl (JS.ErrorObject ("Unknown tool: " ++ name))).
Proof.
  unfold Server.callTool. cbn [map Server.tools Server.tool_name In].
  destruct (String.eqb name "codex_review") eqn:E.
  - split; [reflexivity|]. apply String.eqb_eq in E. intros H. elim H. now left.
  - split; [|reflexivity]. apply String.eqb_neq in E.
    intros [H|[]]. now elim E.
Qed.

Lemma dispatch_matches_listing_witness :
  Server.callTool (fun _ => ".") (Server.mk "key") [] healthy Server.sound_disk
    "Codex_Review" (Server.mkArgs "review this" None None None) []
  = inl (JS.ErrorObject "Unknown tool: Codex_Review").
Proof.
  refine (proj2 (dispatch_matches_listing (fun _ => ".") (Server.mk "key") []
                   healthy Server.sound_disk "Codex_Review"
                   (Server.mkArgs "review this" None None None) []) _).
  intros [H|[]]. discriminate H.
Defined.

(** * Numbers in the timeout override *)

Lemma text_append_cons c (a b : string) : String c a ++ b = String c (a ++ b).
Proof. reflexivity. Qed.

Lemma digits_value_cons acc c r :
  JS.digits_value acc (String c r) =
    if JS.is_digit c then JS.digits_value (10 * acc + JS.digit_value c) r else acc.
Proof. reflexivity. Qed.

Lemma digits_value_stop acc rest :
  JS.starts_with_digit rest = false -> JS.digits_value acc rest = acc.
Proof.
  destruct rest as [|c r]; [reflexivity|].
  cbn [JS.starts_with_digit]. intros H. now rewrite digits_value_cons, H.
Qed.

(** Reading the digits of a decimal numeral from the left continues the
    value read so far. *)
Lemma digits_value_numeral d e rest :
  JS.digits_value (Z.of_N (DecimalPos.Unsigned.of_lu e))
    (NilEmpty.string_of_uint d ++ rest)
  = JS.digits_value
      (Z.of_N (DecimalPos.Unsigned.of_lu (Decimal.revapp d e))) rest.
Proof.
  revert e. induction d; intros e;
    cbn [NilEmpty.string_of_uint Decimal.revapp]; [reflexivity|..];
    rewrite text_append_cons, digits_value_cons;
    match goal with
    | |- context [JS.is_digit ?c] =>
        change (JS.is_digit c) with true;
        let v := eval vm_compute in (JS.digit_value c) in
        change (JS.digit_value c) with v
    end;
    rewrite <- IHd; f_equal;
    cbn [DecimalPos.Unsigned.of_lu]; lia.
Qed.

Lemma digits_value_of_uint d rest :
  JS.starts_with_digit rest = false ->
  JS.digits_value 0 (NilEmpty.string_of_uint d ++ rest) = Z.of_uint d.
Proof.
  intros H.
  change 0 with (Z.of_N (DecimalPos.Unsigned.of_lu Decimal.Nil)).
  rewrite digits_value_numeral, (digits_value_stop _ _ H).
  unfold Z.of_uint. now rewrite DecimalPos.Unsigned.of_uint_alt.
Qed.

(** A character below 128 that is no white space is where the trimming
    of [parseInt] stops. *)
Lemma trim_start_keeps a r :
  JS.ws1 a = false -> (JS.code_of a < 128)%nat ->
  JS.trim_start (String a r) = String a r.
Proof.
  intros H1 H2.
  assert (W2 : forall b, JS.ws2 a b = false).
  { intros b. unfold JS.ws2.
    destruct (Nat.eqb_spec (JS.code_of a) 194); [lia | reflexivity]. }
  assert (W3 : forall b c, JS.ws3 a b c = false).
  { intros b c. unfold JS.ws3. cbv zeta.
    destruct (Nat.eqb_spec (JS.code_of a) 225); [lia|].
    destruct (Nat.eqb_spec (JS.code_of a) 226); [lia|].
    destruct (Nat.eqb_spec (JS.code_of a) 227); [lia|].
    destruct (Nat.eqb_spec (JS.code_of a) 239); [lia|].
    reflexivity. }
  destruct r as [|b [|c r]]; cbn [JS.trim_start]; rewrite H1, ?W2, ?W3; reflexivity.
Qed.

Lemma digit_is_plain c :
  JS.is_digit c = true ->
  JS.ws1 c = false /\ (JS.code_of c < 128)%nat
  /\ forall r, JS.split_sign (String c r) = (1, String c r).
Proof.
  unfold JS.is_digit, JS.ws1, JS.split_sign. intros H.
  apply andb_prop in H as [A B].
  apply Nat.leb_le in A. apply Nat.leb_le in B.
  split; [|split; [lia|]].
  - destruct (Nat.leb_spec 9 (JS.code_of c)), (Nat.leb_spec (JS.code_of c) 13),
      (Nat.eqb_spec (JS.code_of c) 32); cbn [andb orb]; try reflexivity; lia.
  - intros r.
    destruct (Nat.eqb_spec (JS.code_of c) 45); [lia|].
    destruct (Nat.eqb_spec (JS.code_of c) 43); [lia|]. reflexivity.
Qed.

Lemma split_sign_minus r : JS.split_sign (String "-" r) = (-1, r).
Proof. reflexivity. Qed.

Lemma numeral_head d :
  d <> Decimal.Nil ->
  exists c r, NilEmpty.string_of_uint d = String c r /\ JS.is_digit c = true.
Proof.
  destruct d; intros H; [now elim H|..]; eexists; eexists; split; reflexivity.
Qed.

Lemma parseInt10_numeral d rest :
  d <> Decimal.Nil -> JS.starts_with_digit rest = false ->
  JS.parseInt10 (NilEmpty.string_of_uint d ++ rest) = JS.of_Z (Z.of_uint d)
  /\ JS.parseInt10 (String "-" (NilEmpty.string_of_uint d ++ rest))
     = JS.of_Z (- Z.of_uint d).
Proof.
  intros Hd Hr. pose proof (digits_value_of_uint d rest Hr) as V.
  destruct (numeral_head d Hd) as (c & r & E & Hc).
  rewrite E in *. rewrite text_append_cons in *.
  destruct (digit_is_plain c Hc) as (W & Hlt & Hs).
  unfold JS.parseInt10. split.
  - rewrite (trim_start_keeps c _ W Hlt), Hs.
    cbn [JS.starts_with_digit]. rewrite Hc, V. f_equal. lia.
  - rewrite trim_start_keeps by (vm_compute; (reflexivity || lia)).
    rewrite split_sign_minus. cbn [JS.starts_with_digit]. rewrite Hc, V.
    reflexivity.
Qed.

(** Up to [2^53] a number is printed with all its digits. *)
Lemma numToString_exact z :
  Z.abs z <= 2 ^ 53 -> JS.numToString (JS.JNum z) = JS.decimal z.
Proof.
  intros H. apply Z.leb_le in H. cbn [JS.numToString]. now rewrite H.
Qed.

Lemma decimal_numeral z :
  exists d,
    d <> Decimal.Nil
    /\ ((0 <= z /\ JS.decimal z = NilEmpty.string_of_uint d
         /\ Z.of_uint d = z)
        \/ (z < 0 /\ JS.decimal z = String "-" (NilEmpty.string_of_uint d)
            /\ - Z.of_uint d = z)).
Proof.
  pose proof (DecimalZ.of_to z) as R. unfold JS.decimal.
  destruct z as [|p|p]; cbn [Z.to_int NilZero.string_of_int] in *.
  - exists (Decimal.D0 Decimal.Nil). split; [discriminate|]. left.
    split; [lia|]. split; reflexivity.
  - exists (Pos.to_uint p). pose proof (DecimalPos.Unsigned.to_uint_nonnil p) as N.
    split; [exact N|]. left. split; [lia|]. split; [|exact R].
    unfold NilZero.string_of_uint. destruct (Pos.to_uint p); [now elim N|..]; reflexivity.
  - exists (Pos.to_uint p). pose proof (DecimalPos.Unsigned.to_uint_nonnil p) as N.
    split; [exact N|]. right. split; [lia|]. split; [|exact R].
    unfold NilZero.string_of_uint. destruct (Pos.to_uint p); [now elim N|..]; reflexivity.
Qed.

Lemma parseInt10_numToString z rest :
  Z.abs z <= 2 ^ 53 ->
  JS.starts_with_digit rest = false ->
  JS.parseInt10 (JS.numToString (JS.JNum z) ++ rest) = JS.JNum z
  /\ exists c r, JS.numToString (JS.JNum z) ++ rest = String c r.
Proof.
  intros Hz Hr. rewrite (numToString_exact z Hz), <- (of_Z_exact z Hz).
  destruct (decimal_numeral z) as (d & Hd & [(_ & E & V) | (_ & E & V)]);
    rewrite E; destruct (parseInt10_numeral d rest Hd Hr) as [A B].
  - rewrite A, V. split; [reflexivity|].
    destruct (numeral_head d Hd) as (c & r & Ed & _). rewrite Ed.
    exists c, (r ++ rest). reflexivity.
  - rewrite text_append_cons, B, V. split; [reflexivity|].
    eexists. eexists. reflexivity.
Qed.

(** X15: [parseInt] reads back what the template literal prints.  When
    [CODEX_TIMEOUT_MS] holds the decimal text of an integer (within the
    range in which JavaScript numbers are exact), possibly followed by
    text that does not start with a digit, such as a unit, the closure
    constant [TIMEOUT_MS] is that integer, negative values included, and
    the timeout message prints the same digits again. *)
Theorem override_numeral_is_read_back
    apiKey env L prompt model effort (evs : list Event) (z : Z) (rest : string) :
  Z.abs z <= 9007199254740992 ->
  JS.starts_with_digit rest = false ->
  env_get "CODEX_TIMEOUT_MS" env = Some (JS.numToString (JS.JNum z) ++ rest) ->
  JS.parseInt10 (JS.numToString (JS.JNum z) ++ rest) = JS.JNum z
  /\ TIMEOUT_MS (after apiKey env L prompt model effort evs) = JS.JNum z
  /\ timeout_message (TIMEOUT_MS (after apiKey env L prompt model effort evs))
     = "Codex process timed out after " ++ JS.numToString (JS.JNum z) ++ "ms".
Proof.
  intros Hz Hr He.
  destruct (parseInt10_numToString z rest Hz Hr) as (P & c & r & E).
  assert (T : TIMEOUT_MS (after apiKey env L prompt model effort evs) = JS.JNum z).
  { rewrite after_TIMEOUT_MS, He, E. cbn [JS.or_default]. rewrite <- E. exact P. }
  split; [exact P|]. split; [exact T|]. rewrite T. reflexivity.
Qed.

Lemma override_numeral_is_read_back_witness :
  TIMEOUT_MS
    (after "key" [("CODEX_TIMEOUT_MS", "5000ms")] healthy "review this"
       "gpt-5-codex" "high" [Elapse 10])
  = JS.JNum 5000.
Proof.
  refine (proj1 (proj2 (override_numeral_is_read_back "key"
                          [("CODEX_TIMEOUT_MS", "5000ms")] healthy "review this"
                          "gpt-5-codex" "high" [Elapse 10] 5000 "ms" _ eq_refl
                          eq_refl))).
  vm_compute. discriminate.
Defined.

(** X16: an override that [parseInt] does not read as a number between
    1 and 2147483647 does not fall back to five minutes: whether it reads
    as [NaN], as a number below 1, as a number above 2147483647 or as an
    infinity, the termination timer is due 1 ms after launch, so that a
    child that has not closed by then is sent SIGTERM and the call is
    rejected with the timeout message, which prints the unusable value
    the way a template literal prints a number ([NaN], [0], [-5],
    [9007199254740992] for an override of 9007199254740993, [1e+21],
    [Infinity]). *)
Theorem unusable_override_times_out_at_once
    apiKey env prompt model effort :
  let T := JS.parseInt10 (JS.or_default (env_get "CODEX_TIMEOUT_MS" env) "300000") in
  let s := after apiKey env healthy prompt model effort [Elapse 1; Fire 0%nat] in
  (forall z, T = JS.JNum z -> z < 1 \/ TIMEOUT_MAX < z) ->
  timers (callCodex apiKey env healthy prompt model effort)
    = [mkTimer 0 OnTimeout T 1]
  /\ signals s = [(1, SIGTERM)]
  /\ promise s =
       Settled (Rejected ("Codex process timed out after "
                            ++ JS.numToString T ++ "ms")).
Proof.
  intros T s H.
  assert (D : node_delay T = 1).
  { destruct T as [|z|neg]; [reflexivity| |reflexivity].
    specialize (H z eq_refl). unfold node_delay.
    destruct (Z.leb_spec 1 z), (Z.leb_spec z TIMEOUT_MAX); cbn [andb];
      try reflexivity; lia. }
  unfold s, after, callCodex, new_promise, executor, run, healthy.
  cbn [fold_left]. fold T. step. rewrite D.
  change (1 <=? 0 + Z.max 0 1) with true. step.
  repeat split.
Qed.

Lemma unusable_override_times_out_at_once_witness :
  promise
    (after "key" [("CODEX_TIMEOUT_MS", "1000000000000000000000")] healthy
       "review this" "gpt-5-codex" "high" [Elapse 1; Fire 0%nat])
  = Settled (Rejected "Codex process timed out after 1e+21ms")
  /\ promise
       (after "key" [("CODEX_TIMEOUT_MS", "9007199254740993")] healthy
          "review this" "gpt-5-codex" "high" [Elapse 1; Fire 0%nat])
     = Settled (Rejected "Codex process timed out after 9007199254740992ms").
Proof.
  split.
  - apply (unusable_override_times_out_at_once "key"
             [("CODEX_TIMEOUT_MS", "1000000000000000000000")]
             "review this" "gpt-5-codex" "high").
    intros z H. vm_compute in H. injection H as <-. right. reflexivity.
  - apply (unusable_override_times_out_at_once "key"
             [("CODEX_TIMEOUT_MS", "9007199254740993")]
             "review this" "gpt-5-codex" "high").
    intros z H. vm_compute in H. injection H as <-. right. reflexivity.
Defined.
